(** * Juiceworks Discord bot: command authorization and channel provisioning

    A shallow embedding of [main.go]: the two slash-command handlers
    ([makeChannel], [addMember]), the authorization guard
    ([checkCommandCaller]), the permission helper ([channelPermissions]) and
    the dispatch table ([commandHandlers]).

    The chat platform is an external collaborator.  Every call the program
    makes on its session, and every line it logs, is recorded as an [Event]
    together with the outcome the platform gave; a handler is a function that,
    given the platform and the history so far, returns its result and the
    events it emitted, in program order. *)

From Stdlib Require Import ZArith List String Ascii Bool Lia.
From stdpp Require Import base gmap strings.
Import ListNotations.

Local Open Scope string_scope.

(* ===================================================================== *)
(** * Go strings

    A Go string is a sequence of bytes and [len] counts bytes; Rocq's
    [string] (a list of 8-bit [ascii]) is used for it as it is. *)
(* ===================================================================== *)

(** The builtin [len(s)]: the number of bytes of [s]. *)
Definition len (s : string) : Z := Z.of_nat (String.length s).

(** The functions of the package [strings] that the program calls. *)
Module strings.

(** [c < utf8.RuneSelf]: the byte is a whole (ASCII) character. *)
Definition isASCIIbyte (c : ascii) : bool := (N_of_ascii c <? 128)%N.

Fixpoint isASCII (s : string) : bool :=
  match s with
  | EmptyString => true
  | String c s' => isASCIIbyte c && isASCII s'
  end.

(** The library's [asciiSpace] table: tab, line feed, vertical tab, form
    feed, carriage return and space. *)
Definition asciiSpace (c : ascii) : bool :=
  match N_of_ascii c with
  | 9%N | 10%N | 11%N | 12%N | 13%N | 32%N => true
  | _ => false
  end.

Fixpoint trimLeftASCII (s : string) : string :=
  match s with
  | EmptyString => EmptyString
  | String c s' => if asciiSpace c then trimLeftASCII s' else s
  end.

Fixpoint trimRightASCII (s : string) : string :=
  match s with
  | EmptyString => EmptyString
  | String c s' =>
      match trimRightASCII s' with
      | EmptyString => if asciiSpace c then EmptyString else String c EmptyString
      | t => String c t
      end
  end.

(** ['A' <= c && c <= 'Z'] then [c += 'a' - 'A']. *)
Definition lowerASCIIbyte (c : ascii) : ascii :=
  let n := N_of_ascii c in
  if ((65 <=? n) && (n <=? 90))%N then ascii_of_N (n + 32) else c.

Fixpoint lowerASCII (s : string) : string :=
  match s with
  | EmptyString => EmptyString
  | String c s' => String (lowerASCIIbyte c) (lowerASCII s')
  end.

(** What the library does with a string that has a byte of a multi-byte
    character: both functions then go through the Unicode tables
    ([unicode.IsSpace], [unicode.ToLower]), which are not part of the
    program; their results are a parameter of the model. *)
Record Unicode := {
  TrimFunc_IsSpace : string -> string;   (* TrimFunc(s, unicode.IsSpace) *)
  Map_ToLower : string -> string         (* Map(unicode.ToLower, s) *)
}.

(** [strings.TrimSpace]: leading and trailing white space removed. *)
Definition TrimSpace (u : Unicode) (s : string) : string :=
  if isASCII s then trimRightASCII (trimLeftASCII s) else TrimFunc_IsSpace u s.

(** [strings.ToLower]: letters mapped to lower case. *)
Definition ToLower (u : Unicode) (s : string) : string :=
  if isASCII s then lowerASCII s else Map_ToLower u s.

(** [strings.ReplaceAll(s, old, new)]: the non-overlapping occurrences of
    [old], taken from the left, are replaced by [new].  In [replaceFrom],
    [skip] counts the bytes of the occurrence just replaced that are still to
    be passed over.  With an empty [old] the library puts [new] before every
    character and at the end; [insertAround] does so byte by byte, which is
    the same on ASCII strings (the program's pattern is the one-byte string
    of a space). *)
Fixpoint replaceFrom (skip : nat) (s old new : string) : string :=
  match s with
  | EmptyString => EmptyString
  | String c s' =>
      match skip with
      | S k => replaceFrom k s' old new
      | O =>
          if String.prefix old s
          then new +:+ replaceFrom (String.length old - 1) s' old new
          else String c (replaceFrom 0 s' old new)
      end
  end.

Fixpoint insertAround (s new : string) : string :=
  match s with
  | EmptyString => new
  | String c s' => new +:+ String c (insertAround s' new)
  end.

Definition ReplaceAll (s old new : string) : string :=
  match old with
  | EmptyString => insertAround s new
  | _ => replaceFrom 0 s old new
  end.

End strings.

(* ===================================================================== *)
(** * The client library's data, as far as the program reads it *)
(* ===================================================================== *)

(** A Go [error], by its [Error()] text. *)
Definition error : Type := string.

(** A Go result pair [(value, err)]. *)
Inductive result (A : Type) : Type :=
| Ok (a : A)
| Err (e : error).
Arguments Ok {A} a.
Arguments Err {A} e.

Inductive ApplicationCommandOptionType : Type :=
| ApplicationCommandOptionSubCommand
| ApplicationCommandOptionSubCommandGroup
| ApplicationCommandOptionString
| ApplicationCommandOptionInteger
| ApplicationCommandOptionBoolean
| ApplicationCommandOptionUser
| ApplicationCommandOptionChannel
| ApplicationCommandOptionRole
| ApplicationCommandOptionMentionable
| ApplicationCommandOptionNumber
| ApplicationCommandOptionAttachment.

#[global] Instance ApplicationCommandOptionType_eq_dec :
  EqDecision ApplicationCommandOptionType.
Proof. solve_decision. Defined.

Inductive PermissionOverwriteType : Type :=
| PermissionOverwriteTypeRole
| PermissionOverwriteTypeMember.

Inductive ChannelType : Type :=
| ChannelTypeGuildText.

Inductive InteractionResponseType : Type :=
| InteractionResponseChannelMessageWithSource.

(** Permission bits and message flags (64-bit integers in the library). *)
Definition PermissionViewChannel : Z := Z.shiftl 1 10.
Definition PermissionSendMessages : Z := Z.shiftl 1 11.
Definition MessageFlagsEphemeral : Z := Z.shiftl 1 6.

Record User : Type := {
  User_ID : string;
  Username : string
}.

(** [user.Mention()]. *)
Definition Mention (u : User) : string := "<@" +:+ User_ID u +:+ ">".

Record Member : Type := {
  Member_UserID : string;
  Roles : list string
}.

Record Channel : Type := {
  Channel_ID : string;
  Channel_Name : string
}.

(** One option of a command invocation; [Option_Value] is the option's value
    as the platform sends it (the text for a string option, the user's
    identifier for a user option). *)
Record ApplicationCommandInteractionDataOption : Type := {
  Option_Name : string;
  Option_Type : ApplicationCommandOptionType;
  Option_Value : string
}.

Definition StringValue (o : ApplicationCommandInteractionDataOption) : string :=
  Option_Value o.

Record ApplicationCommandInteractionData : Type := {
  Name : string;
  Options : list ApplicationCommandInteractionDataOption
}.

(** An incoming command invocation ([*discordgo.InteractionCreate]). *)
Record InteractionCreate : Type := {
  ID : string;
  GuildID : string;
  ChannelID : string;
  Member_ : option Member;
  ApplicationCommandData : ApplicationCommandInteractionData
}.

Record InteractionResponseData : Type := {
  Content : string;
  Flags : Z
}.

Record InteractionResponse : Type := {
  Response_Type : InteractionResponseType;
  Data : InteractionResponseData
}.

(** The response every path of the program builds: a channel message with
    source, flagged ephemeral, with the given content. *)
Definition ephemeral (content : string) : InteractionResponse :=
  {| Response_Type := InteractionResponseChannelMessageWithSource;
     Data := {| Content := content; Flags := MessageFlagsEphemeral |} |}.

(* ===================================================================== *)
(** * The platform, the trace, and the handler monad *)
(* ===================================================================== *)

(** An argument of a [log.Printf] line. *)
Inductive LogArg : Type :=
| ArgError (e : error)
| ArgString (s : string)
| ArgUser (u : User)
| ArgChannel (c : Channel).

(** What the program does to the outside world, with the outcome it got.
    The session's interface also offers the removal of a role from a member;
    it is listed with the calls although no handler makes it. *)
Inductive Event : Type :=
| EInteractionRespond (interactionID : string) (resp : InteractionResponse)
                      (err : option error)
| EUserValue (o : ApplicationCommandInteractionDataOption) (u : User)
| EGuildMember (guildID userID : string) (r : result Member)
| EGuildMemberRoleAdd (guildID userID roleID : string) (err : option error)
| EGuildMemberRoleRemove (guildID userID roleID : string) (err : option error)
| EGuildChannelCreate (guildID name : string) (ctype : ChannelType)
                      (r : result Channel)
| EChannelPermissionSet (channelID targetID : string)
                        (targetType : PermissionOverwriteType)
                        (allow deny : Z) (err : option error)
| ELog (format : string) (args : list LogArg).

(** The platform behind the session: for each call, the outcome it gives
    after a given history of events.  Nothing is assumed of it. *)
Record Discord : Type := {
  onInteractionRespond :
    list Event -> string -> InteractionResponse -> option error;
  onUserValue :
    list Event -> ApplicationCommandInteractionDataOption -> User;
  onGuildMember : list Event -> string -> string -> result Member;
  onGuildMemberRoleAdd :
    list Event -> string -> string -> string -> option error;
  onGuildMemberRoleRemove :
    list Event -> string -> string -> string -> option error;
  onGuildChannelCreate :
    list Event -> string -> string -> ChannelType -> result Channel;
  onChannelPermissionSet :
    list Event -> string -> string -> PermissionOverwriteType -> Z -> Z ->
    option error
}.

(** A computation on the session [s]: run on platform [d] after history [h],
    it gives its result and the events it emitted. *)
Definition M (A : Type) : Type := Discord -> list Event -> A * list Event.

Definition ret {A : Type} (a : A) : M A := fun _ _ => (a, []).

Definition bind {A B : Type} (m : M A) (k : A -> M B) : M B :=
  fun d h =>
    let (a, es1) := m d h in
    let (b, es2) := k a d (h ++ es1)%list in
    (b, (es1 ++ es2)%list).

Declare Scope session_scope.
Delimit Scope session_scope with session.
Notation "x <- m ;; k" := (bind m (fun x => k))
  (at level 100, m at next level, right associativity) : session_scope.
Notation "m ;;; k" := (bind m (fun _ => k))
  (at level 100, right associativity) : session_scope.
Local Open Scope session_scope.

(** The events a computation emits, and its result. *)
Definition emitted {A : Type} (m : M A) (d : Discord) (h : list Event)
  : list Event := snd (m d h).
Definition returned {A : Type} (m : M A) (d : Discord) (h : list Event)
  : A := fst (m d h).

(** One call: ask the platform, record the call with its outcome. *)
Definition call {A : Type} (ask : Discord -> list Event -> A)
    (record : A -> Event) : M A :=
  fun d h => let a := ask d h in (a, [record a]).

Definition InteractionRespond (i : InteractionCreate)
    (resp : InteractionResponse) : M (option error) :=
  call (fun d h => onInteractionRespond d h (ID i) resp)
       (EInteractionRespond (ID i) resp).

Definition UserValue (o : ApplicationCommandInteractionDataOption) : M User :=
  call (fun d h => onUserValue d h o) (EUserValue o).

Definition GuildMember (guildID userID : string) : M (result Member) :=
  call (fun d h => onGuildMember d h guildID userID)
       (EGuildMember guildID userID).

Definition GuildMemberRoleAdd (guildID userID roleID : string)
  : M (option error) :=
  call (fun d h => onGuildMemberRoleAdd d h guildID userID roleID)
       (EGuildMemberRoleAdd guildID userID roleID).

Definition GuildMemberRoleRemove (guildID userID roleID : string)
  : M (option error) :=
  call (fun d h => onGuildMemberRoleRemove d h guildID userID roleID)
       (EGuildMemberRoleRemove guildID userID roleID).

Definition GuildChannelCreate (guildID name : string) (ctype : ChannelType)
  : M (result Channel) :=
  call (fun d h => onGuildChannelCreate d h guildID name ctype)
       (EGuildChannelCreate guildID name ctype).

Definition ChannelPermissionSet (channelID targetID : string)
    (targetType : PermissionOverwriteType) (allow deny : Z)
  : M (option error) :=
  call (fun d h => onChannelPermissionSet d h channelID targetID targetType
                     allow deny)
       (EChannelPermissionSet channelID targetID targetType allow deny).

(** [log.Printf]. *)
Definition Printf (format : string) (args : list LogArg) : M unit :=
  fun _ _ => (tt, [ELog format args]).

(** [fmt.Errorf] with a constant message. *)
Definition Errorf (msg : string) : error := msg.

(* ===================================================================== *)
(** * main.go *)
(* ===================================================================== *)

Definition JuiceworksGuildId : string := "1256628364987600977".
Definition InternalChannelId : string := "1256628365771669556".
Definition JuiceworksRoleId : string := "1257752490372370503".
Definition ProjectCreatorRoleId : string := "1259262543034060830".
Definition ServicesRoleId : string := "1260738526425780264".

(** Wrapper to log an error if responding to an interaction fails. *)
Definition logResponseErr (err : option error) : M unit :=
  match err with
  | Some e => Printf "Error responding to interaction: %v" [ArgError e]
  | None => ret tt
  end.

(** The loops [for _, role := range roles { if role == id { found = true;
    break } }] of the guard and of [addMember]. *)
Fixpoint hasRole (id : string) (roles : list string) : bool :=
  match roles with
  | [] => false
  | role :: rest => if String.eqb role id then true else hasRole id rest
  end.

(** A struct to hold the parameters for setting channel permissions (the
    session is the computation's own). *)
Record channelPermissionSetup : Type := {
  channelID : string;
  targetID : string;
  targetType : PermissionOverwriteType;
  allow : Z;
  deny : Z;
  interaction : InteractionCreate
}.

(** Set the permissions for a channel. If it fails, respond to the
    interaction and log/return the error. *)
Definition channelPermissions (cps : channelPermissionSetup)
  : M (option error) :=
  err <- ChannelPermissionSet (channelID cps) (targetID cps) (targetType cps)
                              (allow cps) (deny cps) ;;
  match err with
  | Some e =>
      rerr <- InteractionRespond (interaction cps)
                (ephemeral ("Error setting channel permissions: " +:+ e)) ;;
      logResponseErr rerr ;;;
      Printf "Error setting channel permissions: %v" [ArgError e] ;;;
      ret (Some e)
  | None => ret None
  end.

(** Make sure a command is being called in the Juiceworks Discord server, by
    a Juiceworks member. *)
Definition checkCommandCaller (i : InteractionCreate) : M (option error) :=
  if negb (String.eqb (GuildID i) JuiceworksGuildId)
     || negb (bool_decide (is_Some (Member_ i)))
  then
    rerr <- InteractionRespond i
              (ephemeral
                 "This command can only be used in the Juiceworks Discord server.") ;;
    logResponseErr rerr ;;;
    ret (Some (Errorf
                 "command was called outside of the Juiceworks Discord server"))
  else
    let callerHasJuiceworksRole :=
      hasRole JuiceworksRoleId
        (match Member_ i with Some m => Roles m | None => [] end) in
    if negb callerHasJuiceworksRole then
      rerr <- InteractionRespond i
                (ephemeral
                   "This command can only be used by Juiceworks members.") ;;
      logResponseErr rerr ;;;
      ret (Some (Errorf "command was called by a non-Juiceworks member"))
    else ret None.

(** Add a user to a private channel, and grant them the Project Creator
    role. *)
Definition addMember (i : InteractionCreate) : M unit :=
  err <- checkCommandCaller i ;;
  match err with
  | Some e => Printf "Command caller check failed on addMember: %v" [ArgError e]
  | None =>
      (* Prevent adding new members to the internal channel. *)
      if String.eqb (ChannelID i) InternalChannelId then
        rerr <- InteractionRespond i
                  (ephemeral "This command cannot be used in the internal channel.") ;;
        logResponseErr rerr
      else
        (* Verify the command options. *)
        let options := Options (ApplicationCommandData i) in
        let requiresUser : M unit :=
          rerr <- InteractionRespond i
                    (ephemeral "This command requires a user.") ;;
          logResponseErr rerr in
        match options with
        | [] => requiresUser
        | o :: _ =>
            if negb (bool_decide (Option_Type o = ApplicationCommandOptionUser))
            then requiresUser
            else
              user <- UserValue o ;;
              (* Get the user's roles *)
              r <- GuildMember JuiceworksGuildId (User_ID user) ;;
              match r with
              | Err e =>
                  Printf "Error reading member roles: %v" [ArgError e] ;;;
                  rerr <- InteractionRespond i
                            (ephemeral ("Error reading member roles: " +:+ e)) ;;
                  logResponseErr rerr
              | Ok member =>
                  (* Check if the user is a service provider *)
                  let isServiceProvider := hasRole ServicesRoleId (Roles member) in
                  (* If the user isn't a service provider, grant them the
                     Project Creator role. *)
                  continue <-
                    (if negb isServiceProvider then
                       gerr <- GuildMemberRoleAdd JuiceworksGuildId (User_ID user)
                                 ProjectCreatorRoleId ;;
                       match gerr with
                       | Some e =>
                           Printf "Error granting Project Creator role: %v"
                                  [ArgError e] ;;;
                           rerr <- InteractionRespond i
                                     (ephemeral
                                        ("Error granting Project Creator role: "
                                         +:+ e)) ;;
                           logResponseErr rerr ;;;
                           ret false
                       | None => ret true
                       end
                     else ret true) ;;
                  if continue : bool then
                    (* Add the user to the channel the command was called
                       from. *)
                    perr <- channelPermissions
                              {| channelID := ChannelID i;
                                 targetID := User_ID user;
                                 targetType := PermissionOverwriteTypeMember;
                                 allow := Z.lor PermissionViewChannel
                                                PermissionSendMessages;
                                 deny := 0;
                                 interaction := i |} ;;
                    match perr with
                    | Some e =>
                        Printf "Error adding member to channel: %v" [ArgError e] ;;;
                        rerr <- InteractionRespond i
                                  (ephemeral
                                     ("Error adding member to channel: " +:+ e)) ;;
                        logResponseErr rerr
                    | None =>
                        (* Respond to the interaction. *)
                        Printf "Added %s (%s) to channel %s."
                               [ArgUser user; ArgString (Mention user);
                                ArgString (ChannelID i)] ;;;
                        rerr <- InteractionRespond i
                                  (ephemeral
                                     ("Added " +:+ Mention user
                                      +:+ " to the channel.")) ;;
                        logResponseErr rerr
                    end
                  else ret tt
              end
        end
  end.

(** The loop [for _, p := range permissionsToSet] of [makeChannel]: [false]
    when a [channelPermissions] failed and the handler returned from inside
    the loop. *)
Fixpoint forPermissionsToSet (ps : list channelPermissionSetup) : M bool :=
  match ps with
  | [] => ret true
  | p :: rest =>
      perr <- channelPermissions p ;;
      match perr with
      | Some _ => ret false
      | None => forPermissionsToSet rest
      end
  end.

(** Make a private channel for a new project. Add the project creator and
    Juiceworks members to the channel. *)
Definition makeChannel (u : strings.Unicode) (i : InteractionCreate) : M unit :=
  err <- checkCommandCaller i ;;
  match err with
  | Some e => Printf "Command caller check failed on makeChannel: %v" [ArgError e]
  | None =>
      (* Verify the command options. *)
      let options := Options (ApplicationCommandData i) in
      let requiresName : M unit :=
        rerr <- InteractionRespond i
                  (ephemeral "This command requires a channel name.") ;;
        logResponseErr rerr in
      match options with
      | [] => requiresName
      | o :: _ =>
          if negb (bool_decide (Option_Type o = ApplicationCommandOptionString))
          then requiresName
          else
            (* Clean up the channel name. *)
            let channelName := StringValue o in
            let channelName := strings.TrimSpace u channelName in
            let channelName := strings.ToLower u channelName in
            let channelName := strings.ReplaceAll channelName " " "-" in
            if ((len channelName <? 2) || (len channelName >? 100))%Z
            then
              rerr <- InteractionRespond i
                        (ephemeral
                           "Channel name must be between 2 and 100 characters.") ;;
              logResponseErr rerr
            else
              (* Create the channel. *)
              r <- GuildChannelCreate JuiceworksGuildId channelName
                     ChannelTypeGuildText ;;
              match r with
              | Err e =>
                  rerr <- InteractionRespond i
                            (ephemeral ("Error creating channel: " +:+ e)) ;;
                  logResponseErr rerr
              | Ok channel =>
                  (* Set the permissions for the channel. *)
                  let permissionsToSet :=
                    [ (* Add the Juiceworks role to the channel. *)
                      {| channelID := Channel_ID channel;
                         targetID := JuiceworksRoleId;
                         targetType := PermissionOverwriteTypeRole;
                         allow := Z.lor PermissionViewChannel
                                        PermissionSendMessages;
                         deny := 0;
                         interaction := i |};
                      (* Make the channel private. *)
                      {| channelID := Channel_ID channel;
                         targetID := JuiceworksGuildId;
                         targetType := PermissionOverwriteTypeRole;
                         allow := 0;
                         deny := PermissionViewChannel;
                         interaction := i |} ] in
                  completed <- forPermissionsToSet permissionsToSet ;;
                  if completed : bool then
                    (* Respond to the interaction. *)
                    Printf "Created channel: %v" [ArgChannel channel] ;;;
                    rerr <- InteractionRespond i
                              (ephemeral
                                 ("Created channel: #" +:+ Channel_Name channel)) ;;
                    logResponseErr rerr
                  else ret tt
              end
      end
  end.

(** The handler table, by command name. *)
Definition commandHandlers (u : strings.Unicode)
  : gmap string (InteractionCreate -> M unit) :=
  <["make-channel" := makeChannel u]> (<["add-member" := addMember]> ∅).

(** The function [main] registers for created interactions: call the
    appropriate command handler. *)
Definition onInteractionCreate (u : strings.Unicode) (i : InteractionCreate)
  : M unit :=
  match commandHandlers u !! Name (ApplicationCommandData i) with
  | Some h => h i
  | None => ret tt
  end.

(* ===================================================================== *)
(** * Reading a trace *)
(* ===================================================================== *)

(** The responses sent to the platform, in order. *)
Definition responses (es : list Event) : list InteractionResponse :=
  flat_map (fun e => match e with
                     | EInteractionRespond _ r _ => [r]
                     | _ => []
                     end) es.

(** A response only its caller sees. *)
Definition isEphemeral (r : InteractionResponse) : Prop :=
  Flags (Data r) = MessageFlagsEphemeral.

(** The log lines, in order. *)
Definition logs (es : list Event) : list Event :=
  List.filter (fun e => match e with ELog _ _ => true | _ => false end) es.

(** A request to the platform other than the reply to the interaction:
    user lookup, member fetch, role grant or removal, channel creation,
    permission overwrite. *)
Definition isRequest (e : Event) : bool :=
  match e with
  | ELog _ _ | EInteractionRespond _ _ _ => false
  | _ => true
  end.

Definition requests (es : list Event) : list Event := List.filter isRequest es.

Definition isOverwrite (e : Event) : bool :=
  match e with EChannelPermissionSet _ _ _ _ _ _ => true | _ => false end.
Definition isGrant (e : Event) : bool :=
  match e with EGuildMemberRoleAdd _ _ _ _ => true | _ => false end.
Definition isFetch (e : Event) : bool :=
  match e with EGuildMember _ _ _ => true | _ => false end.
Definition isRemoval (e : Event) : bool :=
  match e with EGuildMemberRoleRemove _ _ _ _ => true | _ => false end.

(** An overwrite that failed. *)
Definition isFailedOverwrite (e : Event) : bool :=
  match e with
  | EChannelPermissionSet _ _ _ _ _ (Some _) => true
  | _ => false
  end.

(** The permission overwrites attempted, in order. *)
Definition overwrites (es : list Event) : list Event := List.filter isOverwrite es.

(** The events of one reply: the response and, when its delivery failed with
    [rerr], the line [logResponseErr] logs. *)
Definition reply (i : InteractionCreate) (content : string)
    (rerr : option error) : list Event :=
  EInteractionRespond (ID i) (ephemeral content) rerr
  :: match rerr with
     | Some e => [ELog "Error responding to interaction: %v" [ArgError e]]
     | None => []
     end.

(** The guard's conditions: the interaction comes from the configured guild,
    carries a member, and that member holds the community role. *)
Definition inGuild (i : InteractionCreate) : Prop :=
  GuildID i = JuiceworksGuildId /\ is_Some (Member_ i).

Definition callerIsMember (i : InteractionCreate) : Prop :=
  exists m, Member_ i = Some m /\ In JuiceworksRoleId (Roles m).

Definition authorized (i : InteractionCreate) : Prop :=
  inGuild i /\ callerIsMember i.

(** The option test of both handlers, [len(options) == 0 ||
    options[0].Type != ty], passes: there is a first option and it has
    type [ty]. *)
Definition firstOptionIs (ty : ApplicationCommandOptionType)
    (i : InteractionCreate) : Prop :=
  exists o rest,
    Options (ApplicationCommandData i) = o :: rest /\ Option_Type o = ty.

(** The spec's words on the option test: exactly one option, of type [ty]. *)
Definition exactlyOneOption (ty : ApplicationCommandOptionType)
    (i : InteractionCreate) : Prop :=
  exists o, Options (ApplicationCommandData i) = [o] /\ Option_Type o = ty.

(** The spec's [normalize(name) = lower(trim(name)).replace(' ', '-')]. *)
Definition normalize (u : strings.Unicode) (name : string) : string :=
  strings.ReplaceAll (strings.ToLower u (strings.TrimSpace u name)) " " "-".

(** The spec's [2 <= len(normalize(name)) <= 100]. *)
Definition validLength (n : string) : Prop := (2 <= len n <= 100)%Z.




(** The two overwrites of [makeChannel] on the channel [ch], with their
    outcomes: the community role is allowed to view and send, the guild's
    default role (the guild identifier as the subject) is denied the view. *)
Definition allowCommunity (ch : Channel) (outcome : option error) : Event :=
  EChannelPermissionSet (Channel_ID ch) JuiceworksRoleId
    PermissionOverwriteTypeRole
    (Z.lor PermissionViewChannel PermissionSendMessages) 0 outcome.

Definition denyEveryone (ch : Channel) (outcome : option error) : Event :=
  EChannelPermissionSet (Channel_ID ch) JuiceworksGuildId
    PermissionOverwriteTypeRole 0 PermissionViewChannel outcome.

(** The overwrite of [addMember]: the target user is allowed to view and
    send in the channel the command was invoked in. *)
Definition allowTarget (i : InteractionCreate) (user : User)
    (outcome : option error) : Event :=
  EChannelPermissionSet (ChannelID i) (User_ID user)
    PermissionOverwriteTypeMember
    (Z.lor PermissionViewChannel PermissionSendMessages) 0 outcome.

(** The grant of the project-creator role to [user]. *)
Definition grantCreator (user : User) (outcome : option error) : Event :=
  EGuildMemberRoleAdd JuiceworksGuildId (User_ID user) ProjectCreatorRoleId
    outcome.

(** What a failed [channelPermissions] leaves after the overwrite itself:
    its reply and its log line. *)
Definition permissionFailure (i : InteractionCreate) (e : error)
    (rerr : option error) : list Event :=
  (reply i ("Error setting channel permissions: " +:+ e) rerr
   ++ [ELog "Error setting channel permissions: %v" [ArgError e]])%list.

(** What the guard emits when it fails, and the line the handler [handler]
    logs then. *)
Definition outsideGuild (i : InteractionCreate) (handler : string)
    (rerr : option error) : list Event :=
  (reply i "This command can only be used in the Juiceworks Discord server."
         rerr
   ++ [ELog ("Command caller check failed on " +:+ handler +:+ ": %v")
            [ArgError
               "command was called outside of the Juiceworks Discord server"]])%list.

Definition notAMember (i : InteractionCreate) (handler : string)
    (rerr : option error) : list Event :=
  (reply i "This command can only be used by Juiceworks members." rerr
   ++ [ELog ("Command caller check failed on " +:+ handler +:+ ": %v")
            [ArgError "command was called by a non-Juiceworks member"]])%list.

(** The execution paths of [makeChannel], each with the condition under
    which it is taken and the events it emits. *)
Inductive makeChannelPath (u : strings.Unicode) (i : InteractionCreate)
  : list Event -> Prop :=
| mc_outside rerr :
    ~ inGuild i ->
    makeChannelPath u i (outsideGuild i "makeChannel" rerr)
| mc_not_member rerr :
    inGuild i -> ~ callerIsMember i ->
    makeChannelPath u i (notAMember i "makeChannel" rerr)
| mc_no_name rerr :
    authorized i -> ~ firstOptionIs ApplicationCommandOptionString i ->
    makeChannelPath u i (reply i "This command requires a channel name." rerr)
| mc_bad_length o rest rerr :
    authorized i ->
    Options (ApplicationCommandData i) = o :: rest ->
    Option_Type o = ApplicationCommandOptionString ->
    ~ validLength (normalize u (Option_Value o)) ->
    makeChannelPath u i
      (reply i "Channel name must be between 2 and 100 characters." rerr)
| mc_create_failed o rest e rerr :
    authorized i ->
    Options (ApplicationCommandData i) = o :: rest ->
    Option_Type o = ApplicationCommandOptionString ->
    validLength (normalize u (Option_Value o)) ->
    makeChannelPath u i
      (EGuildChannelCreate JuiceworksGuildId (normalize u (Option_Value o))
         ChannelTypeGuildText (Err e)
       :: reply i ("Error creating channel: " +:+ e) rerr)
| mc_allow_failed o rest ch e rerr :
    authorized i ->
    Options (ApplicationCommandData i) = o :: rest ->
    Option_Type o = ApplicationCommandOptionString ->
    validLength (normalize u (Option_Value o)) ->
    makeChannelPath u i
      (EGuildChannelCreate JuiceworksGuildId (normalize u (Option_Value o))
         ChannelTypeGuildText (Ok ch)
       :: allowCommunity ch (Some e)
       :: permissionFailure i e rerr)
| mc_deny_failed o rest ch e rerr :
    authorized i ->
    Options (ApplicationCommandData i) = o :: rest ->
    Option_Type o = ApplicationCommandOptionString ->
    validLength (normalize u (Option_Value o)) ->
    makeChannelPath u i
      (EGuildChannelCreate JuiceworksGuildId (normalize u (Option_Value o))
         ChannelTypeGuildText (Ok ch)
       :: allowCommunity ch None
       :: denyEveryone ch (Some e)
       :: permissionFailure i e rerr)
| mc_created o rest ch rerr :
    authorized i ->
    Options (ApplicationCommandData i) = o :: rest ->
    Option_Type o = ApplicationCommandOptionString ->
    validLength (normalize u (Option_Value o)) ->
    makeChannelPath u i
      (EGuildChannelCreate JuiceworksGuildId (normalize u (Option_Value o))
         ChannelTypeGuildText (Ok ch)
       :: allowCommunity ch None
       :: denyEveryone ch None
       :: ELog "Created channel: %v" [ArgChannel ch]
       :: reply i ("Created channel: #" +:+ Channel_Name ch) rerr).

(** The role grant of [addMember] for a fetched [member]: none when the
    member holds the service-provider role, else one successful grant. *)
Definition grantIfNeeded (user : User) (member : Member) : list Event :=
  if hasRole ServicesRoleId (Roles member) then [] else [grantCreator user None].

(** The execution paths of [addMember]. *)
Inductive addMemberPath (i : InteractionCreate) : list Event -> Prop :=
| am_outside rerr :
    ~ inGuild i ->
    addMemberPath i (outsideGuild i "addMember" rerr)
| am_not_member rerr :
    inGuild i -> ~ callerIsMember i ->
    addMemberPath i (notAMember i "addMember" rerr)
| am_internal rerr :
    authorized i -> ChannelID i = InternalChannelId ->
    addMemberPath i
      (reply i "This command cannot be used in the internal channel." rerr)
| am_no_user rerr :
    authorized i -> ChannelID i <> InternalChannelId ->
    ~ firstOptionIs ApplicationCommandOptionUser i ->
    addMemberPath i (reply i "This command requires a user." rerr)
| am_fetch_failed o rest user e rerr :
    authorized i -> ChannelID i <> InternalChannelId ->
    Options (ApplicationCommandData i) = o :: rest ->
    Option_Type o = ApplicationCommandOptionUser ->
    addMemberPath i
      (EUserValue o user
       :: EGuildMember JuiceworksGuildId (User_ID user) (Err e)
       :: ELog "Error reading member roles: %v" [ArgError e]
       :: reply i ("Error reading member roles: " +:+ e) rerr)
| am_grant_failed o rest user member e rerr :
    authorized i -> ChannelID i <> InternalChannelId ->
    Options (ApplicationCommandData i) = o :: rest ->
    Option_Type o = ApplicationCommandOptionUser ->
    ~ In ServicesRoleId (Roles member) ->
    addMemberPath i
      (EUserValue o user
       :: EGuildMember JuiceworksGuildId (User_ID user) (Ok member)
       :: grantCreator user (Some e)
       :: ELog "Error granting Project Creator role: %v" [ArgError e]
       :: reply i ("Error granting Project Creator role: " +:+ e) rerr)
| am_overwrite_failed o rest user member e rerr1 rerr2 :
    authorized i -> ChannelID i <> InternalChannelId ->
    Options (ApplicationCommandData i) = o :: rest ->
    Option_Type o = ApplicationCommandOptionUser ->
    addMemberPath i
      (EUserValue o user
       :: EGuildMember JuiceworksGuildId (User_ID user) (Ok member)
       :: grantIfNeeded user member
       ++ allowTarget i user (Some e)
       :: permissionFailure i e rerr1
       ++ ELog "Error adding member to channel: %v" [ArgError e]
       :: reply i ("Error adding member to channel: " +:+ e) rerr2)
| am_added o rest user member rerr :
    authorized i -> ChannelID i <> InternalChannelId ->
    Options (ApplicationCommandData i) = o :: rest ->
    Option_Type o = ApplicationCommandOptionUser ->
    addMemberPath i
      (EUserValue o user
       :: EGuildMember JuiceworksGuildId (User_ID user) (Ok member)
       :: grantIfNeeded user member
       ++ allowTarget i user None
       :: ELog "Added %s (%s) to channel %s."
               [ArgUser user; ArgString (Mention user); ArgString (ChannelID i)]
       :: reply i ("Added " +:+ Mention user +:+ " to the channel.") rerr).

(** The roles the guild holds for the member [userID] after the events
    [es], when it held [held] before: a role operation that succeeded on that
    member adds or deletes its role, everything else leaves the roles as they
    are. *)
Definition applyRoleEvent (guildID userID : string) (held : list string)
    (e : Event) : list string :=
  match e with
  | EGuildMemberRoleAdd g m r None =>
      if String.eqb g guildID && String.eqb m userID
      then (if hasRole r held then held else r :: held)
      else held
  | EGuildMemberRoleRemove g m r None =>
      if String.eqb g guildID && String.eqb m userID
      then List.filter (fun x => negb (String.eqb x r)) held
      else held
  | _ => held
  end.

Definition rolesAfter (guildID userID : string) (held : list string)
    (es : list Event) : list string :=
  fold_left (applyRoleEvent guildID userID) es held.

(* ===================================================================== *)
(** * Concrete platforms and interactions, for the examples *)
(* ===================================================================== *)

(** Tables that leave a string with multi-byte characters as it is; the
    names of the examples are ASCII and never reach them. *)
Definition plainTables : strings.Unicode :=
  {| strings.TrimFunc_IsSpace := fun s => s;
     strings.Map_ToLower := fun s => s |}.









(** The number of overwrites attempted so far. *)
Definition overwritesSoFar (h : list Event) : nat :=
  List.length (overwrites h).

(** A platform that delivers every reply, resolves a user option to the user
    of that identifier, and answers the member fetch with [member], the role
    grant with [grant], the channel creation with [create] and the [n]-th
    overwrite (from 0) with [overwrite n]. *)
Definition scripted (member : result Member) (grant : option error)
    (create : result Channel) (overwrite : nat -> option error) : Discord :=
  {| onInteractionRespond := fun _ _ _ => None;
     onUserValue := fun _ o =>
       {| User_ID := Option_Value o; Username := "target" |};
     onGuildMember := fun _ _ _ => member;
     onGuildMemberRoleAdd := fun _ _ _ _ => grant;
     onGuildMemberRoleRemove := fun _ _ _ _ => None;
     onGuildChannelCreate := fun _ _ _ _ => create;
     onChannelPermissionSet := fun h _ _ _ _ _ => overwrite (overwritesSoFar h) |}.

Definition newcomer : Member := {| Member_UserID := "42"; Roles := [] |}.
Definition provider : Member :=
  {| Member_UserID := "42"; Roles := ["7"; ServicesRoleId] |}.
Definition projectChannel : Channel :=
  {| Channel_ID := "900"; Channel_Name := "my-project" |}.

(** Every call succeeds. *)
Definition allGood : Discord :=
  scripted (Ok newcomer) None (Ok projectChannel) (fun _ => None).

(** Every call succeeds except the permission overwrites. *)
Definition overwriteRefused : Discord :=
  scripted (Ok newcomer) None (Ok projectChannel)
           (fun _ => Some "Missing Permissions").

(** A caller holding the community role, and interactions of theirs. *)
Definition juiceworksCaller : Member :=
  {| Member_UserID := "1"; Roles := ["5"; JuiceworksRoleId] |}.

Definition invoke (guild channel : string) (caller : option Member)
    (name : string) (options : list ApplicationCommandInteractionDataOption)
  : InteractionCreate :=
  {| ID := "interaction-1"; GuildID := guild; ChannelID := channel;
     Member_ := caller;
     ApplicationCommandData := {| Name := name; Options := options |} |}.

Definition stringOption (value : string)
  : ApplicationCommandInteractionDataOption :=
  {| Option_Name := "channel-name";
     Option_Type := ApplicationCommandOptionString;
     Option_Value := value |}.

Definition userOption (userID : string)
  : ApplicationCommandInteractionDataOption :=
  {| Option_Name := "user";
     Option_Type := ApplicationCommandOptionUser;
     Option_Value := userID |}.

Definition makeChannelCall (options : list ApplicationCommandInteractionDataOption)
  : InteractionCreate :=
  invoke JuiceworksGuildId "555" (Some juiceworksCaller) "make-channel" options.

Definition addMemberCall (channel : string)
  : InteractionCreate :=
  invoke JuiceworksGuildId channel (Some juiceworksCaller) "add-member"
         [userOption "42"].

(* ===================================================================== *)
(** * Further readings of a trace *)
(* ===================================================================== *)

(** Every failed delivery of a response is followed at once by the line
    [logResponseErr] logs for its error, and that line stands nowhere else. *)
Fixpoint deliveryFailuresLogged (es : list Event) : bool :=
  match es with
  | [] => true
  | EInteractionRespond _ _ (Some e) :: rest =>
      match rest with
      | ELog f [ArgError e'] :: rest' =>
          String.eqb f "Error responding to interaction: %v"
          && String.eqb e' e && deliveryFailuresLogged rest'
      | _ => false
      end
  | ELog f _ :: rest =>
      negb (String.eqb f "Error responding to interaction: %v")
      && deliveryFailuresLogged rest
  | _ :: rest => deliveryFailuresLogged rest
  end.

(** The guild a request names, when it names one. *)
Definition guildOf (e : Event) : option string :=
  match e with
  | EGuildMember g _ _ => Some g
  | EGuildMemberRoleAdd g _ _ _ => Some g
  | EGuildMemberRoleRemove g _ _ _ => Some g
  | EGuildChannelCreate g _ _ _ => Some g
  | _ => None
  end.

Definition isCreation (e : Event) : bool :=
  match e with EGuildChannelCreate _ _ _ _ => true | _ => false end.
Definition isUserLookup (e : Event) : bool :=
  match e with EUserValue _ _ => true | _ => false end.

(** A request that the platform answered with an error. *)
Definition isFailedRequest (e : Event) : bool :=
  match e with
  | EGuildMember _ _ (Err _) => true
  | EGuildMemberRoleAdd _ _ _ (Some _) => true
  | EGuildMemberRoleRemove _ _ _ (Some _) => true
  | EGuildChannelCreate _ _ _ (Err _) => true
  | EChannelPermissionSet _ _ _ _ _ (Some _) => true
  | _ => false
  end.

(** The bytes of a string. *)
Fixpoint bytes (s : string) : list ascii :=
  match s with
  | EmptyString => []
  | String c s' => c :: bytes s'
  end.

(** An ASCII upper-case letter. *)
Definition isUpperASCII (c : ascii) : bool :=
  ((65 <=? N_of_ascii c) && (N_of_ascii c <=? 90))%N.

(* ===================================================================== *)
(** * The registered commands *)
(* ===================================================================== *)

Inductive ApplicationCommandType : Type :=
| ChatApplicationCommand
| UserApplicationCommand
| MessageApplicationCommand.

(** An option a command declares. *)
Record ApplicationCommandOption : Type := {
  CommandOption_Type : ApplicationCommandOptionType;
  CommandOption_Name : string;
  CommandOption_Description : string;
  Required : bool
}.

(** A command as it is registered; [Command_ID] is empty until the platform
    gives one. *)
Record ApplicationCommand : Type := {
  Command_ID : string;
  Command_Type : ApplicationCommandType;
  Command_Name : string;
  Command_Description : string;
  Command_GuildID : string;
  Command_Options : list ApplicationCommandOption
}.

(** The slash commands to register in the Juiceworks guild. *)
Definition commands : list ApplicationCommand :=
  [ {| Command_ID := "";
       Command_Type := ChatApplicationCommand;
       Command_Name := "make-channel";
       Command_Description := "Create a channel for a new project.";
       Command_GuildID := JuiceworksGuildId;
       Command_Options :=
         [ {| CommandOption_Type := ApplicationCommandOptionString;
              CommandOption_Name := "channel-name";
              CommandOption_Description := "What to name the channel";
              Required := true |} ] |};
    {| Command_ID := "";
       Command_Type := ChatApplicationCommand;
       Command_Name := "add-member";
       Command_Description :=
         "Add a member to this channel. Use in a channel to add someone.";
       Command_GuildID := JuiceworksGuildId;
       Command_Options :=
         [ {| CommandOption_Type := ApplicationCommandOptionUser;
              CommandOption_Name := "user";
              CommandOption_Description := "The user to add to the channel";
              Required := true |} ] |} ].

(** An invocation as the platform sends it for the registered command [c]:
    it carries the command's name and, for each option the command declares
    as required, in the declared order, an option of that name and type. *)
Definition conforms (c : ApplicationCommand) (i : InteractionCreate) : Prop :=
  Name (ApplicationCommandData i) = Command_Name c
  /\ Forall (fun co => Required co = true) (Command_Options c)
  /\ Forall2 (fun o co => Option_Name o = CommandOption_Name co
                          /\ Option_Type o = CommandOption_Type co)
             (Options (ApplicationCommandData i)) (Command_Options c).

(** A response that refuses the options of an invocation. *)
Definition isOptionRefusal (r : InteractionResponse) : bool :=
  String.eqb (Content (Data r)) "This command requires a channel name."
  || String.eqb (Content (Data r)) "This command requires a user.".

(* ===================================================================== *)
(** * The process: [main]

    The process is modelled like a handler: what [main] does to the outside
    (environment, file system, session, platform, log, signals) is recorded
    as a [ProcessEvent] with the outcome it got, and [main] is a function of
    the host's answers and the history.  A Go function may also leave by
    [os.Exit] (what [log.Fatal] does) or by a panic, or wait for ever on a
    channel; deferred calls run when the function returns or panics, not when
    the process exits or waits.  The interactions that the session's event loop hands to
    [onInteractionCreate] while [main] waits for a signal are not part of
    [main]'s own events. *)
(* ===================================================================== *)

Inductive Signal : Type := SIGINT | SIGTERM.

(** [os.Interrupt]. *)
Definition Interrupt : Signal := SIGINT.

Inductive LogLevelT : Type := LogError | LogWarning | LogInformational | LogDebug.

Inductive HandlerKind : Type := ReadyHandler | InteractionCreateHandler.

(** An assignment to a field of the session. *)
Inductive SessionField : Type :=
| ShouldReconnectOnError (b : bool)
| ShouldRetryOnRateLimit (b : bool)
| LogLevel (l : LogLevelT).

Inductive ProcessEvent : Type :=
| PGetenv (key value : string)
| PStat (name : string) (err : option error)
| PGodotenvLoad (filename : string) (err : option error)
| PNew (token : string) (err : option error)
| PSet (field : SessionField)
| PAddHandler (k : HandlerKind)
| POpen (err : option error)
| PClose (err : option error)
| PApplicationCommandCreate (appID guildID : string) (cmd : ApplicationCommand)
                            (r : result ApplicationCommand)
| PApplicationCommandDelete (appID guildID cmdID : string) (err : option error)
| PSignalNotify (sigs : list Signal)
| PReceive (sig : Signal)
| PLog (format : string) (args : list LogArg).

(** The host of the process: its answers after a given history.
    [onStateUser] is the bot's own user as the session state holds it
    ([s.State.User], a pointer: [None] is nil); [onSignal] is the signal that
    comes while the process waits, [None] when none ever comes. *)
Record Host : Type := {
  onGetenv : list ProcessEvent -> string -> string;
  onStat : list ProcessEvent -> string -> option error;
  onGodotenvLoad : list ProcessEvent -> string -> option error;
  onNew : list ProcessEvent -> string -> option error;
  onOpen : list ProcessEvent -> option error;
  onClose : list ProcessEvent -> option error;
  onStateUser : list ProcessEvent -> option User;
  onApplicationCommandCreate :
    list ProcessEvent -> string -> string -> ApplicationCommand ->
    result ApplicationCommand;
  onApplicationCommandDelete :
    list ProcessEvent -> string -> string -> string -> option error;
  onSignal : list ProcessEvent -> option Signal
}.

(** How a Go function is left, if it is: it returns, exits the process,
    panics, or blocks for ever. *)
Inductive outcome (A : Type) : Type :=
| Returned (a : A)
| Exited (code : Z)
| Panicked (format : string) (args : list LogArg)
| Blocked.
Arguments Returned {A} a.
Arguments Exited {A} code.
Arguments Panicked {A} format args.
Arguments Blocked {A}.

Definition P (A : Type) : Type :=
  Host -> list ProcessEvent -> outcome A * list ProcessEvent.

Definition pret {A : Type} (a : A) : P A := fun _ _ => (Returned a, []).

Definition pbind {A B : Type} (m : P A) (k : A -> P B) : P B :=
  fun H h =>
    let (o, es1) := m H h in
    match o with
    | Returned a =>
        let (o2, es2) := k a H (h ++ es1)%list in (o2, (es1 ++ es2)%list)
    | Exited code => (Exited code, es1)
    | Panicked f args => (Panicked f args, es1)
    | Blocked => (Blocked, es1)
    end.

(** [defer deferred; body]: [deferred] runs when [body] returns or panics; a
    panic of [body] goes on after it unless [deferred] itself leaves
    otherwise.  Nothing deferred runs when [body] exits the process or
    blocks. *)
Definition defer {A : Type} (deferred : P unit) (body : P A) : P A :=
  fun H h =>
    let (o, es1) := body H h in
    match o with
    | Exited code => (Exited code, es1)
    | Blocked => (Blocked, es1)
    | _ =>
        let (o2, es2) := deferred H (h ++ es1)%list in
        (match o2 with
         | Returned _ => o
         | Exited code => Exited code
         | Panicked f args => Panicked f args
         | Blocked => Blocked
         end, (es1 ++ es2)%list)
    end.

Declare Scope process_scope.
Delimit Scope process_scope with process.
Notation "x <- m ;; k" := (pbind m (fun x => k))
  (at level 100, m at next level, right associativity) : process_scope.
Notation "m ;;; k" := (pbind m (fun _ => k))
  (at level 100, right associativity) : process_scope.

Definition pcall {A : Type} (ask : Host -> list ProcessEvent -> A)
    (record : A -> ProcessEvent) : P A :=
  fun H h => let a := ask H h in (Returned a, [record a]).

Definition Getenv (key : string) : P string :=
  pcall (fun H h => onGetenv H h key) (PGetenv key).
Definition Stat (name : string) : P (option error) :=
  pcall (fun H h => onStat H h name) (PStat name).
Definition godotenv_Load (filename : string) : P (option error) :=
  pcall (fun H h => onGodotenvLoad H h filename) (PGodotenvLoad filename).
Definition New (token : string) : P (option error) :=
  pcall (fun H h => onNew H h token) (PNew token).
Definition Open : P (option error) :=
  pcall (fun H h => onOpen H h) POpen.
Definition Close : P (option error) :=
  pcall (fun H h => onClose H h) PClose.
Definition ApplicationCommandCreate (appID guildID : string)
    (cmd : ApplicationCommand) : P (result ApplicationCommand) :=
  pcall (fun H h => onApplicationCommandCreate H h appID guildID cmd)
        (PApplicationCommandCreate appID guildID cmd).
Definition ApplicationCommandDelete (appID guildID cmdID : string)
  : P (option error) :=
  pcall (fun H h => onApplicationCommandDelete H h appID guildID cmdID)
        (PApplicationCommandDelete appID guildID cmdID).

(** [<-sc]: the signal that comes, or waiting for ever. *)
Definition Receive : P Signal :=
  fun H h =>
    match onSignal H h with
    | Some sig => (Returned sig, [PReceive sig])
    | None => (Blocked, [])
    end.

Definition emit (e : ProcessEvent) : P unit := fun _ _ => (Returned tt, [e]).

(** [log.Printf] and [log.Println] of the process. *)
Definition logPrintf (format : string) (args : list LogArg) : P unit :=
  emit (PLog format args).
Definition logPrintln (line : string) : P unit := emit (PLog line []).

(** [log.Fatalf], [log.Fatalln]: the line, then [os.Exit(1)]. *)
Definition logFatalf {A : Type} (format : string) (args : list LogArg) : P A :=
  fun _ _ => (Exited 1, [PLog format args]).
Definition logFatalln {A : Type} (line : string) : P A :=
  fun _ _ => (Exited 1, [PLog line []]).

(** [log.Panicf]: the line, then a panic with it. *)
Definition logPanicf {A : Type} (format : string) (args : list LogArg) : P A :=
  fun _ _ => (Panicked format args, [PLog format args]).

(** The panic of the runtime on a nil pointer. *)
Definition nilPointerDereference : string :=
  "runtime error: invalid memory address or nil pointer dereference".

Definition nilDereference {A : Type} : P A :=
  fun _ _ => (Panicked nilPointerDereference [], []).

(** Reading [s.State.User.ID]. *)
Definition StateUserID : P string :=
  fun H h =>
    match onStateUser H h with
    | Some me => (Returned (User_ID me), [])
    | None => nilDereference H h
    end.

(** The line feed that ends some formats. *)
Definition lf : string := String "010" EmptyString.

Local Open Scope process_scope.

(** The loop that registers the slash commands: [registeredCommands] has a
    slot for each command, and the command at index [i] goes into slot [i]. *)
Fixpoint registerFrom (i : nat) (cmds : list ApplicationCommand)
    (registeredCommands : list (option ApplicationCommand))
  : P (list (option ApplicationCommand)) :=
  match cmds with
  | [] => pret registeredCommands
  | v :: rest =>
      me <- StateUserID ;;
      r <- ApplicationCommandCreate me JuiceworksGuildId v ;;
      match r with
      | Err e =>
          logPanicf "Cannot create '%v' command: %v"
                    [ArgString (Command_Name v); ArgError e]
      | Ok cmd =>
          registerFrom (S i) rest (<[i := Some cmd]> registeredCommands)
      end
  end.

(** The deferred clean-up: delete the registered commands, in order. *)
Fixpoint deleteRegistered
    (registeredCommands : list (option ApplicationCommand)) : P unit :=
  match registeredCommands with
  | [] => pret tt
  | v :: rest =>
      me <- StateUserID ;;
      match v with
      | None => nilDereference
      | Some cmd =>
          err <- ApplicationCommandDelete me JuiceworksGuildId
                   (Command_ID cmd) ;;
          match err with
          | Some e =>
              logPanicf "Cannot delete '%v' command: %v"
                        [ArgString (Command_Name cmd); ArgError e]
          | None => deleteRegistered rest
          end
      end
  end.

Definition main : P unit :=
  (* Load the Discord token from the environment or .env file *)
  t <- Getenv "DISCORD_TOKEN" ;;
  discordToken <-
    (if negb (String.eqb t "") then pret t
     else
       serr <- Stat ".env" ;;
       match serr with
       | Some e => logFatalf ("Could not load .env file: %s" +:+ lf) [ArgError e]
       | None =>
           _ <- godotenv_Load ".env" ;;
           discordToken <- Getenv "DISCORD_TOKEN" ;;
           if String.eqb discordToken "" then
             logFatalln
               "Could not find DISCORD_TOKEN in .env file or environment."
           else pret discordToken
       end) ;;
  (* Create the Discord session. *)
  nerr <- New ("Bot " +:+ discordToken) ;;
  match nerr with
  | Some e =>
      logFatalf ("Could not create Discord session: %s" +:+ lf) [ArgError e]
  | None =>
      (* Configure session & log on ready. *)
      emit (PSet (ShouldReconnectOnError true)) ;;;
      emit (PSet (ShouldRetryOnRateLimit true)) ;;;
      emit (PSet (LogLevel LogError)) ;;;
      emit (PAddHandler ReadyHandler) ;;;
      (* Call the appropriate command handler when an interaction is
         created. *)
      emit (PAddHandler InteractionCreateHandler) ;;;
      (* Open the Discord session. *)
      oerr <- Open ;;
      match oerr with
      | Some e =>
          logFatalf ("Could not open Discord session: %s" +:+ lf) [ArgError e]
      | None =>
          defer (_ <- Close ;; pret tt)
            ((* Register slash commands in the Juiceworks guild. *)
             registeredCommands <-
               registerFrom 0 commands
                 (replicate (List.length commands) None) ;;
             (* Clean up the commands when the program exits. *)
             defer (deleteRegistered registeredCommands)
               ((* Wait for a signal to shutdown. *)
                logPrintln "Bot is running.  Press CTRL-C to exit." ;;;
                emit (PSignalNotify [SIGINT; SIGTERM; Interrupt]) ;;;
                _ <- Receive ;;
                logPrintln "Shutting down..."))
      end
  end.

Local Close Scope process_scope.

(** A host, for the examples: the token comes from [env] before the file is
    loaded and from [fileEnv] after; [dotenv] is the outcome of looking for
    the file; the session is created and opened, and knows its user; the
    [n]-th registration (from 0) is answered by [create n] and the [n]-th
    deletion by [delete n]; [sig] is the signal that comes, if any. *)
Definition isLoad (e : ProcessEvent) : bool :=
  match e with PGodotenvLoad _ _ => true | _ => false end.
Definition isCreate (e : ProcessEvent) : bool :=
  match e with PApplicationCommandCreate _ _ _ _ => true | _ => false end.
Definition isDelete (e : ProcessEvent) : bool :=
  match e with PApplicationCommandDelete _ _ _ _ => true | _ => false end.
Definition isClose (e : ProcessEvent) : bool :=
  match e with PClose _ => true | _ => false end.
Definition isStat (e : ProcessEvent) : bool :=
  match e with PStat _ _ => true | _ => false end.

Definition hostOf (env fileEnv : string) (dotenv : option error)
    (create : nat -> ApplicationCommand -> result ApplicationCommand)
    (delete : nat -> option error) (sig : option Signal) : Host :=
  {| onGetenv := fun h _ => if existsb isLoad h then fileEnv else env;
     onStat := fun _ _ => dotenv;
     onGodotenvLoad := fun _ _ => None;
     onNew := fun _ _ => None;
     onOpen := fun _ => None;
     onClose := fun _ => None;
     onStateUser := fun _ =>
       Some {| User_ID := "777"; Username := "juicebot" |};
     onApplicationCommandCreate := fun h _ _ cmd =>
       create (List.length (List.filter isCreate h)) cmd;
     onApplicationCommandDelete := fun h _ _ _ =>
       delete (List.length (List.filter isDelete h));
     onSignal := fun _ => sig |}.

(** The platform registers a command by giving it an identifier. *)
Definition registeredAs (n : nat) (cmd : ApplicationCommand)
  : result ApplicationCommand :=
  Ok {| Command_ID := if Nat.eqb n 0 then "cmd-1" else "cmd-2";
        Command_Type := Command_Type cmd;
        Command_Name := Command_Name cmd;
        Command_Description := Command_Description cmd;
        Command_GuildID := Command_GuildID cmd;
        Command_Options := Command_Options cmd |}.

(** The token is in the environment, everything succeeds, and the process
    is interrupted. *)
Definition healthyHost : Host :=
  hostOf "secret" "" None registeredAs (fun _ => None) (Some SIGINT).

(** The ways the token is found: in the environment, or in the environment
    after the file [.env] was found and loaded. *)
Inductive tokenPhase : string -> list ProcessEvent -> Prop :=
| token_from_environment t :
    t <> "" ->
    tokenPhase t [PGetenv "DISCORD_TOKEN" t]
| token_from_file lerr t :
    t <> "" ->
    tokenPhase t
      [PGetenv "DISCORD_TOKEN" ""; PStat ".env" None;
       PGodotenvLoad ".env" lerr; PGetenv "DISCORD_TOKEN" t].

(** The session is created with the token [t], configured, and given its
    two handlers. *)
Definition configured (t : string) : list ProcessEvent :=
  [PNew ("Bot " +:+ t) None;
   PSet (ShouldReconnectOnError true);
   PSet (ShouldRetryOnRateLimit true);
   PSet (LogLevel LogError);
   PAddHandler ReadyHandler;
   PAddHandler InteractionCreateHandler].

(** The session is open, both commands are registered (as [c1] and [c2]),
    and the process waits for a signal. *)
Definition waiting (mk am : ApplicationCommand) (me1 : string)
    (c1 : ApplicationCommand) (me2 : string) (c2 : ApplicationCommand)
  : list ProcessEvent :=
  [POpen None;
   PApplicationCommandCreate me1 JuiceworksGuildId mk (Ok c1);
   PApplicationCommandCreate me2 JuiceworksGuildId am (Ok c2);
   PLog "Bot is running.  Press CTRL-C to exit." [];
   PSignalNotify [SIGINT; SIGTERM; Interrupt]].

(** The same, and the signal [sig] came. *)
Definition served (mk am : ApplicationCommand) (me1 : string)
    (c1 : ApplicationCommand) (me2 : string) (c2 : ApplicationCommand)
    (sig : Signal) : list ProcessEvent :=
  waiting mk am me1 c1 me2 c2
  ++ [PReceive sig; PLog "Shutting down..." []].

(** The execution paths of [main]: how it is left, and its events. *)
Inductive mainPath : outcome unit -> list ProcessEvent -> Prop :=
| main_no_file e :
    mainPath (Exited 1)
      [PGetenv "DISCORD_TOKEN" ""; PStat ".env" (Some e);
       PLog ("Could not load .env file: %s" +:+ lf) [ArgError e]]
| main_no_token lerr :
    mainPath (Exited 1)
      [PGetenv "DISCORD_TOKEN" ""; PStat ".env" None;
       PGodotenvLoad ".env" lerr; PGetenv "DISCORD_TOKEN" "";
       PLog "Could not find DISCORD_TOKEN in .env file or environment." []]
| main_no_session t tok e :
    tokenPhase t tok ->
    mainPath (Exited 1)
      (tok ++ [PNew ("Bot " +:+ t) (Some e);
               PLog ("Could not create Discord session: %s" +:+ lf)
                    [ArgError e]])
| main_not_opened t tok e :
    tokenPhase t tok ->
    mainPath (Exited 1)
      (tok ++ configured t
       ++ [POpen (Some e);
           PLog ("Could not open Discord session: %s" +:+ lf) [ArgError e]])
| main_first_unidentified t tok cerr :
    tokenPhase t tok ->
    mainPath (Panicked nilPointerDereference [])
      (tok ++ configured t ++ [POpen None; PClose cerr])
| main_first_refused t tok mk am me1 e cerr :
    tokenPhase t tok -> commands = [mk; am] ->
    mainPath
      (Panicked "Cannot create '%v' command: %v"
                [ArgString (Command_Name mk); ArgError e])
      (tok ++ configured t
       ++ [POpen None;
           PApplicationCommandCreate me1 JuiceworksGuildId mk (Err e);
           PLog "Cannot create '%v' command: %v"
                [ArgString (Command_Name mk); ArgError e];
           PClose cerr])
| main_second_unidentified t tok mk am me1 c1 cerr :
    tokenPhase t tok -> commands = [mk; am] ->
    mainPath (Panicked nilPointerDereference [])
      (tok ++ configured t
       ++ [POpen None;
           PApplicationCommandCreate me1 JuiceworksGuildId mk (Ok c1);
           PClose cerr])
| main_second_refused t tok mk am me1 c1 me2 e cerr :
    tokenPhase t tok -> commands = [mk; am] ->
    mainPath
      (Panicked "Cannot create '%v' command: %v"
                [ArgString (Command_Name am); ArgError e])
      (tok ++ configured t
       ++ [POpen None;
           PApplicationCommandCreate me1 JuiceworksGuildId mk (Ok c1);
           PApplicationCommandCreate me2 JuiceworksGuildId am (Err e);
           PLog "Cannot create '%v' command: %v"
                [ArgString (Command_Name am); ArgError e];
           PClose cerr])
| main_waiting t tok mk am me1 c1 me2 c2 :
    tokenPhase t tok -> commands = [mk; am] ->
    mainPath Blocked (tok ++ configured t ++ waiting mk am me1 c1 me2 c2)
| main_first_unknown t tok mk am me1 c1 me2 c2 sig cerr :
    tokenPhase t tok -> commands = [mk; am] ->
    mainPath (Panicked nilPointerDereference [])
      (tok ++ configured t ++ served mk am me1 c1 me2 c2 sig ++ [PClose cerr])
| main_first_kept t tok mk am me1 c1 me2 c2 sig me3 e cerr :
    tokenPhase t tok -> commands = [mk; am] ->
    mainPath
      (Panicked "Cannot delete '%v' command: %v"
                [ArgString (Command_Name c1); ArgError e])
      (tok ++ configured t ++ served mk am me1 c1 me2 c2 sig
       ++ [PApplicationCommandDelete me3 JuiceworksGuildId (Command_ID c1)
             (Some e);
           PLog "Cannot delete '%v' command: %v"
                [ArgString (Command_Name c1); ArgError e];
           PClose cerr])
| main_second_unknown t tok mk am me1 c1 me2 c2 sig me3 cerr :
    tokenPhase t tok -> commands = [mk; am] ->
    mainPath (Panicked nilPointerDereference [])
      (tok ++ configured t ++ served mk am me1 c1 me2 c2 sig
       ++ [PApplicationCommandDelete me3 JuiceworksGuildId (Command_ID c1)
             None;
           PClose cerr])
| main_second_kept t tok mk am me1 c1 me2 c2 sig me3 me4 e cerr :
    tokenPhase t tok -> commands = [mk; am] ->
    mainPath
      (Panicked "Cannot delete '%v' command: %v"
                [ArgString (Command_Name c2); ArgError e])
      (tok ++ configured t ++ served mk am me1 c1 me2 c2 sig
       ++ [PApplicationCommandDelete me3 JuiceworksGuildId (Command_ID c1)
             None;
           PApplicationCommandDelete me4 JuiceworksGuildId (Command_ID c2)
             (Some e);
           PLog "Cannot delete '%v' command: %v"
                [ArgString (Command_Name c2); ArgError e];
           PClose cerr])
| main_clean t tok mk am me1 c1 me2 c2 sig me3 me4 cerr :
    tokenPhase t tok -> commands = [mk; am] ->
    mainPath (Returned tt)
      (tok ++ configured t ++ served mk am me1 c1 me2 c2 sig
       ++ [PApplicationCommandDelete me3 JuiceworksGuildId (Command_ID c1)
             None;
           PApplicationCommandDelete me4 JuiceworksGuildId (Command_ID c2)
             None;
           PClose cerr]).

(** Reading the events of the process. *)
Definition isNew (e : ProcessEvent) : bool :=
  match e with PNew _ _ => true | _ => false end.
Definition isReceive (e : ProcessEvent) : bool :=
  match e with PReceive _ => true | _ => false end.
Definition isOpened (e : ProcessEvent) : bool :=
  match e with POpen None => true | _ => false end.

(** A step of the start-up that failed: no file [.env], no session, no
    connection. *)
Definition isStartupFailure (e : ProcessEvent) : bool :=
  match e with
  | PStat _ (Some _) | PNew _ (Some _) | POpen (Some _) => true
  | _ => false
  end.

(** The identifiers of the commands the platform registered, in order. *)
Definition registeredIDs (es : list ProcessEvent) : list string :=
  flat_map (fun e => match e with
                     | PApplicationCommandCreate _ _ _ (Ok c) => [Command_ID c]
                     | _ => []
                     end) es.

(** The identifiers whose deletion was asked for, and those whose deletion
    succeeded, in order. *)
Definition deletionsAsked (es : list ProcessEvent) : list string :=
  flat_map (fun e => match e with
                     | PApplicationCommandDelete _ _ id _ => [id]
                     | _ => []
                     end) es.

Definition deletedIDs (es : list ProcessEvent) : list string :=
  flat_map (fun e => match e with
                     | PApplicationCommandDelete _ _ id None => [id]
                     | _ => []
                     end) es.

(** The stage of the process a call belongs to; log lines belong to none. *)
Definition stage (e : ProcessEvent) : option nat :=
  match e with
  | PGetenv _ _ | PStat _ _ | PGodotenvLoad _ _ => Some 0%nat
  | PNew _ _ => Some 1%nat
  | PSet _ | PAddHandler _ => Some 2%nat
  | POpen _ => Some 3%nat
  | PApplicationCommandCreate _ _ _ _ => Some 4%nat
  | PSignalNotify _ | PReceive _ => Some 5%nat
  | PApplicationCommandDelete _ _ _ _ => Some 6%nat
  | PClose _ => Some 7%nat
  | PLog _ _ => None
  end.

Definition stages (es : list ProcessEvent) : list nat :=
  flat_map (fun e => match stage e with Some n => [n] | None => [] end) es.

Fixpoint ascending (l : list nat) : bool :=
  match l with
  | [] => true
  | a :: rest =>
      match rest with
      | [] => true
      | b :: _ => Nat.leb a b && ascending rest
      end
  end.

(* ===================================================================== *)
(** * Basic facts *)
(* ===================================================================== *)

Lemma hasRole_In (id : string) (roles : list string) :
  hasRole id roles = true <-> In id roles.
Proof.
  induction roles as [|role rest IH]; simpl.
  - split; [discriminate | tauto].
  - destruct (String.eqb role id) eqn:E.
    + apply String.eqb_eq in E. subst. tauto.
    + apply String.eqb_neq in E. rewrite IH. split; [tauto|].
      intros [H|H]; [congruence | exact H].
Qed.

Lemma hasRole_not_In (id : string) (roles : list string) :
  hasRole id roles = false <-> ~ In id roles.
Proof.
  rewrite <- hasRole_In. destruct (hasRole id roles); split; congruence.
Qed.

Lemma reply_responses (i : InteractionCreate) (content : string)
    (rerr : option error) :
  responses (reply i content rerr) = [ephemeral content].
Proof. destruct rerr; reflexivity. Qed.

Lemma reply_requests (i : InteractionCreate) (content : string)
    (rerr : option error) :
  requests (reply i content rerr) = [].
Proof. destruct rerr; reflexivity. Qed.

Lemma responses_app (es1 es2 : list Event) :
  responses (es1 ++ es2) = (responses es1 ++ responses es2)%list.
Proof. unfold responses. apply flat_map_app. Qed.

Lemma requests_app (es1 es2 : list Event) :
  requests (es1 ++ es2) = (requests es1 ++ requests es2)%list.
Proof. unfold requests. apply List.filter_app. Qed.

(** The tests of the code, as propositions. *)
Lemma inGuild_test (i : InteractionCreate) :
  negb (String.eqb (GuildID i) JuiceworksGuildId)
  || negb (bool_decide (is_Some (Member_ i))) = false <-> inGuild i.
Proof.
  unfold inGuild. rewrite orb_false_iff, !negb_false_iff.
  rewrite String.eqb_eq, bool_decide_eq_true. reflexivity.
Qed.

Lemma inGuild_test_true (i : InteractionCreate) :
  negb (String.eqb (GuildID i) JuiceworksGuildId)
  || negb (bool_decide (is_Some (Member_ i))) = true <-> ~ inGuild i.
Proof. rewrite <- inGuild_test. symmetry. apply not_false_iff_true. Qed.

Lemma callerIsMember_test (i : InteractionCreate) :
  hasRole JuiceworksRoleId
    (match Member_ i with Some m => Roles m | None => [] end) = true
  <-> callerIsMember i.
Proof.
  unfold callerIsMember. rewrite hasRole_In. split.
  - destruct (Member_ i) as [m|]; [eauto | intros []].
  - intros (m & -> & H). exact H.
Qed.

Lemma callerIsMember_test_neg (i : InteractionCreate) (b : bool) :
  negb (hasRole JuiceworksRoleId
          (match Member_ i with Some m => Roles m | None => [] end)) = b ->
  if b then ~ callerIsMember i else callerIsMember i.
Proof.
  intros <-. pose proof (callerIsMember_test i) as T.
  destruct (hasRole _ _); simpl.
  - apply T. reflexivity.
  - intros H. apply T in H. discriminate.
Qed.

Lemma validLength_test (n : string) :
  ((len n <? 2) || (len n >? 100))%Z = false <-> validLength n.
Proof.
  unfold validLength.
  rewrite orb_false_iff, Z.ltb_ge, Z.gtb_ltb, Z.ltb_ge. tauto.
Qed.

Lemma firstOptionIs_intro ty i o rest :
  Options (ApplicationCommandData i) = o :: rest -> Option_Type o = ty ->
  firstOptionIs ty i.
Proof. intros Ho Ht. exists o, rest. split; assumption. Qed.

Lemma firstOptionIs_nil ty i :
  Options (ApplicationCommandData i) = [] -> ~ firstOptionIs ty i.
Proof. intros Ho (o & rest & Ho' & _). congruence. Qed.

Lemma firstOptionIs_wrong_type ty i o rest :
  Options (ApplicationCommandData i) = o :: rest ->
  Option_Type o <> ty -> ~ firstOptionIs ty i.
Proof. intros Ho Hne (o' & rest' & Ho' & Ht). congruence. Qed.

Lemma hasRole_true_In (id : string) (roles : list string) :
  hasRole id roles = true -> In id roles.
Proof. apply hasRole_In. Qed.

Lemma hasRole_false_not_In (id : string) (roles : list string) :
  hasRole id roles = false -> ~ In id roles.
Proof. apply hasRole_not_In. Qed.

Lemma authorized_inGuild (i : InteractionCreate) :
  authorized i -> ~ inGuild i -> False.
Proof. intros [H _] Hn. exact (Hn H). Qed.

Lemma authorized_member (i : InteractionCreate) :
  authorized i -> ~ callerIsMember i -> False.
Proof. intros [_ H] Hn. exact (Hn H). Qed.

Create HintDb paths.
#[local] Hint Resolve firstOptionIs_nil firstOptionIs_wrong_type
  hasRole_false_not_In : paths.
#[local] Hint Unfold authorized : paths.

Lemma bind_run {A B : Type} (m : M A) (k : A -> M B) (d : Discord)
    (h : list Event) :
  bind m k d h =
  let (a, es1) := m d h in
  let (b, es2) := k a d (h ++ es1)%list in (b, (es1 ++ es2)%list).
Proof. reflexivity. Qed.

(* ===================================================================== *)
(** * Symbolic execution of the handlers *)
(* ===================================================================== *)

(** Unfold the program down to the platform's answers. *)
Ltac unfold_handlers :=
  cbv beta iota zeta delta
    [emitted returned makeChannel addMember checkCommandCaller
     channelPermissions forPermissionsToSet bind call ret Printf
     logResponseErr InteractionRespond UserValue GuildMember
     GuildMemberRoleAdd GuildChannelCreate ChannelPermissionSet Errorf].

(** Case analysis on the innermost test or answer the goal is stuck on. *)
Ltac branch :=
  match goal with
  | |- context [match ?x with _ => _ end] =>
      lazymatch x with
      | context [match _ with _ => _ end] => fail
      | _ => destruct x eqn:?
      end
  end.

Ltac crunch := unfold_handlers; repeat (branch; cbv beta iota zeta).

(** Turn the tests met on the way into the propositions they decide. *)
Ltac props :=
  repeat match goal with
    | H : negb (hasRole JuiceworksRoleId _) = _ |- _ =>
        apply callerIsMember_test_neg in H; cbv beta iota in H
    | H : (_ || _)%bool = false |- _ => apply validLength_test in H
    | H : (_ || _)%bool = true |- _ =>
        apply not_false_iff_true in H; rewrite validLength_test in H
    | H : negb (bool_decide (Option_Type _ = _)) = false |- _ =>
        apply negb_false_iff, bool_decide_eq_true in H
    | H : negb (bool_decide (Option_Type _ = _)) = true |- _ =>
        apply negb_true_iff, bool_decide_eq_false in H
    | H : negb (hasRole ServicesRoleId _) = true |- _ =>
        apply negb_true_iff in H
    | H : negb (hasRole ServicesRoleId _) = false |- _ =>
        apply negb_false_iff in H
    | H : String.eqb (ChannelID _) _ = true |- _ => apply String.eqb_eq in H
    | H : String.eqb (ChannelID _) _ = false |- _ => apply String.eqb_neq in H
    end.

(** Try a tactic on each candidate outcome of a reply's delivery. *)
Ltac with_rerr tac :=
  first [ tac (@None error)
        | match goal with e : error |- _ => tac (Some e) end ].

(** The three outcomes of the guard. *)
Lemma run_checkCommandCaller (i : InteractionCreate) (d : Discord)
    (h : list Event) :
  (~ inGuild i
   /\ exists rerr,
       checkCommandCaller i d h
       = (Some "command was called outside of the Juiceworks Discord server",
          reply i
            "This command can only be used in the Juiceworks Discord server."
            rerr))
  \/ (inGuild i /\ ~ callerIsMember i
      /\ exists rerr,
          checkCommandCaller i d h
          = (Some "command was called by a non-Juiceworks member",
             reply i "This command can only be used by Juiceworks members."
                   rerr))
  \/ (authorized i /\ checkCommandCaller i d h = (None, [])).
Proof.
  unfold checkCommandCaller.
  destruct (negb (String.eqb (GuildID i) JuiceworksGuildId) || _) eqn:Hg.
  - left. apply inGuild_test_true in Hg. split; [exact Hg|].
    crunch; with_rerr ltac:(fun r => exists r; reflexivity).
  - apply inGuild_test in Hg.
    destruct (negb (hasRole JuiceworksRoleId _)) eqn:Hm;
      apply callerIsMember_test_neg in Hm; cbv beta iota in Hm.
    + right; left. split; [exact Hg|]. split; [exact Hm|].
      crunch; with_rerr ltac:(fun r => exists r; reflexivity).
    + right; right. split; [split; assumption | reflexivity].
Qed.

(** Run the guard at the head of a handler. *)
Ltac run_guard i d h :=
  rewrite bind_run;
  destruct (run_checkCommandCaller i d h)
    as [(Hout & rerr & ->) | [(Hin & Hnm & rerr & ->) | (Hauth & ->)]].

(** Every run of [makeChannel] follows one of its paths. *)
Lemma makeChannel_paths (u : strings.Unicode) (i : InteractionCreate)
    (d : Discord) (h : list Event) :
  makeChannelPath u i (emitted (makeChannel u i) d h).
Proof.
  unfold emitted, makeChannel. run_guard i d h.
  - destruct rerr; apply mc_outside; exact Hout.
  - destruct rerr; apply mc_not_member; assumption.
  - crunch; cbn [snd fst app]; props;
      with_rerr ltac:(fun r =>
        solve [ apply (mc_no_name u i r); eauto with paths
              | eapply (mc_bad_length u i _ _ r); eauto
              | eapply (mc_create_failed u i _ _ _ r); eauto
              | eapply (mc_allow_failed u i _ _ _ _ r); eauto
              | eapply (mc_deny_failed u i _ _ _ _ r); eauto
              | eapply (mc_created u i _ _ _ r); eauto ]).
Qed.

(** Every run of [addMember] follows one of its paths. *)
Lemma addMember_paths (i : InteractionCreate) (d : Discord) (h : list Event) :
  addMemberPath i (emitted (addMember i) d h).
Proof.
  unfold emitted, addMember. run_guard i d h.
  - destruct rerr; apply am_outside; exact Hout.
  - destruct rerr; apply am_not_member; assumption.
  - crunch; cbn [snd fst app]; props.
    all: try (with_rerr ltac:(fun r =>
        solve [ apply (am_internal i r); eauto with paths
              | apply (am_no_user i r); eauto with paths
              | eapply (am_fetch_failed i _ _ _ _ r); eauto
              | eapply (am_grant_failed i _ _ _ _ _ r); eauto with paths ])).
    all: match goal with
         | Hb : hasRole ServicesRoleId (Roles ?m) = _
           |- addMemberPath _ (EUserValue ?o ?u :: _) =>
             with_rerr ltac:(fun r1 =>
               first
                 [ let P := fresh "P" in
                   epose proof (am_added i o _ u m r1 ltac:(eassumption)
                                  ltac:(eassumption) ltac:(eassumption)
                                  ltac:(eassumption)) as P;
                   unfold grantIfNeeded in P; rewrite Hb in P; exact P
                 | with_rerr ltac:(fun r2 =>
                     let P := fresh "P" in
                     epose proof (am_overwrite_failed i o _ u m _ r1 r2
                                    ltac:(eassumption) ltac:(eassumption)
                                    ltac:(eassumption) ltac:(eassumption)) as P;
                     unfold grantIfNeeded in P; rewrite Hb in P; exact P) ])
         end.
Qed.

(** Case analysis on the path a handler took. *)
Ltac by_path lemma :=
  cbv zeta;
  match goal with
  | |- context [emitted ?m ?d ?h] =>
      generalize (lemma d h); generalize (emitted m d h);
      let es := fresh "es" in
      let P := fresh "P" in
      intros es P; destruct P
  end.

(** Open the events of a path. *)
Ltac expose :=
  unfold outsideGuild, notAMember, permissionFailure, reply, grantIfNeeded in *.

(** Split a membership in a concrete trace into its cases. *)
Ltac in_cases H :=
  simpl in H;
  repeat (destruct H as [H|H];
          [ try discriminate H; try (injection H as ?; subst) | ]);
  try contradiction.

(** Discard the paths of an unauthorized caller. *)
Ltac authorized_only H :=
  try (exfalso; eapply authorized_inGuild; [exact H | eassumption]);
  try (exfalso; eapply authorized_member; [exact H | eassumption]).

(** The string functions on small inputs. *)
Example TrimSpace_examples (u : strings.Unicode) :
  strings.TrimSpace u (String "009" (String "010" "  a b  ")) = "a b"
  /\ strings.TrimSpace u "   " = ""
  /\ strings.TrimSpace u "ab" = "ab".
Proof. repeat split; reflexivity. Qed.

Example ToLower_examples (u : strings.Unicode) :
  strings.ToLower u "My Project 2!" = "my project 2!"
  /\ strings.ToLower u "AZ[@az" = "az[@az".
Proof. repeat split; reflexivity. Qed.

Example ReplaceAll_examples :
  strings.ReplaceAll "a b  c" " " "-" = "a-b--c"
  /\ strings.ReplaceAll "aaaa" "aa" "b" = "bb"
  /\ strings.ReplaceAll "abcabca" "abc" "" = "a"
  /\ strings.ReplaceAll "abc" "" "-" = "-a-b-c-".
Proof. repeat split; reflexivity. Qed.

(** Replacing a space by a hyphen keeps the length. *)
Lemma replace_space_length (s : string) :
  len (strings.ReplaceAll s " " "-") = len s.
Proof.
  unfold len, strings.ReplaceAll. f_equal.
  induction s as [|c s IH]; [reflexivity|].
  cbn [strings.replaceFrom String.prefix].
  destruct (Ascii.ascii_dec " " c) as [Heq|Hne].
  - assert (Hp : String.prefix "" s = true) by (destruct s; reflexivity).
    rewrite Hp.
    change (S (String.length (strings.replaceFrom 0 s " " "-"))
            = S (String.length s)).
    now rewrite IH.
  - cbn [String.length]. now rewrite IH.
Qed.

(* ===================================================================== *)
(** * The permission helper and the guard *)
(* ===================================================================== *)

Lemma run_channelPermissions (cps : channelPermissionSetup) (d : Discord)
    (h : list Event) :
  match onChannelPermissionSet d h (channelID cps) (targetID cps)
          (targetType cps) (allow cps) (deny cps) with
  | Some e =>
      exists rerr,
        channelPermissions cps d h =
        (Some e,
         EChannelPermissionSet (channelID cps) (targetID cps) (targetType cps)
           (allow cps) (deny cps) (Some e)
         :: permissionFailure (interaction cps) e rerr)
  | None =>
      channelPermissions cps d h =
      (None,
       [EChannelPermissionSet (channelID cps) (targetID cps) (targetType cps)
          (allow cps) (deny cps) None])
  end.
Proof.
  crunch; try reflexivity; with_rerr ltac:(fun r => exists r; reflexivity).
Qed.

(** C8. [channelPermissions] returns an error exactly when the underlying
    permission-set call fails, and it is that call's error.  On failure it
    emits, after the call, one ephemeral response whose content is
    "Error setting channel permissions: " followed by the error text, and the
    log line of the error; on success it emits the call and nothing else: no
    response and no log line. *)
Theorem channelPermissions_contract (cps : channelPermissionSetup)
    (d : Discord) (h : list Event) :
  let outcome :=
    onChannelPermissionSet d h (channelID cps) (targetID cps) (targetType cps)
      (allow cps) (deny cps) in
  let attempt :=
    EChannelPermissionSet (channelID cps) (targetID cps) (targetType cps)
      (allow cps) (deny cps) outcome in
  let es := emitted (channelPermissions cps) d h in
  (is_Some (returned (channelPermissions cps) d h) <-> is_Some outcome)
  /\ returned (channelPermissions cps) d h = outcome
  /\ match outcome with
     | Some e =>
         (exists rerr, es = attempt :: permissionFailure (interaction cps) e rerr)
         /\ responses es
            = [ephemeral ("Error setting channel permissions: " +:+ e)]
         /\ Forall isEphemeral (responses es)
         /\ In (ELog "Error setting channel permissions: %v" [ArgError e]) es
     | None => es = [attempt] /\ responses es = [] /\ logs es = []
     end.
Proof.
  cbv zeta. unfold emitted, returned.
  pose proof (run_channelPermissions cps d h) as Hrun.
  destruct (onChannelPermissionSet d h _ _ _ _ _) as [e|].
  - destruct Hrun as (rerr & ->). cbn [fst snd].
    repeat split; eauto.
    + destruct rerr; reflexivity.
    + destruct rerr; repeat constructor.
    + destruct rerr; simpl; auto.
  - rewrite Hrun. cbn. repeat split; eauto.
Qed.

(** C4. The guard succeeds silently (returns no error, emits nothing) if and
    only if the interaction comes from the configured guild, carries a
    member, and that member holds the community role.  When the guild or the
    member is wrong it sends the one ephemeral response "This command can
    only be used in the Juiceworks Discord server."; when only the role is
    missing it sends "This command can only be used by Juiceworks members.".
    On either failure each handler emits the guard's events and one log line
    after them: no request goes to the platform and no other response. *)
Theorem checkCommandCaller_contract (u : strings.Unicode)
    (i : InteractionCreate) (d : Discord) (h : list Event) :
  let guard := emitted (checkCommandCaller i) d h in
  ((returned (checkCommandCaller i) d h = None /\ guard = [])
   <-> authorized i)
  /\ (returned (checkCommandCaller i) d h = None <-> authorized i)
  /\ (~ inGuild i ->
      responses guard
      = [ephemeral
           "This command can only be used in the Juiceworks Discord server."])
  /\ (inGuild i -> ~ callerIsMember i ->
      responses guard
      = [ephemeral "This command can only be used by Juiceworks members."])
  /\ (~ authorized i ->
      (exists e,
         emitted (addMember i) d h
         = (guard
            ++ [ELog "Command caller check failed on addMember: %v"
                     [ArgError e]])%list)
      /\ (exists e,
         emitted (makeChannel u i) d h
         = (guard
            ++ [ELog "Command caller check failed on makeChannel: %v"
                     [ArgError e]])%list)
      /\ requests (emitted (addMember i) d h) = []
      /\ requests (emitted (makeChannel u i) d h) = []
      /\ responses (emitted (addMember i) d h) = responses guard
      /\ responses (emitted (makeChannel u i) d h) = responses guard).
Proof.
  cbv zeta. unfold emitted, returned, addMember, makeChannel.
  rewrite !bind_run.
  destruct (run_checkCommandCaller i d h)
    as [(Hout & rerr & ->) | [(Hin & Hnm & rerr & ->) | (Hauth & ->)]];
    cbn [fst snd].
  - assert (Hna : ~ authorized i) by (intros [? _]; contradiction).
    split; [split; [intros [? _]; discriminate | tauto]|].
    split; [split; [discriminate | tauto]|].
    split; [intros _; apply reply_responses|].
    split; [tauto|]. intros _.
    unfold Printf. cbn [fst snd].
    rewrite !requests_app, !responses_app, reply_requests.
    repeat split; eauto; apply app_nil_r.
  - assert (Hna : ~ authorized i) by (intros [_ ?]; contradiction).
    split; [split; [intros [? _]; discriminate | tauto]|].
    split; [split; [discriminate | tauto]|].
    split; [tauto|].
    split; [intros _ _; apply reply_responses|]. intros _.
    unfold Printf. cbn [fst snd].
    rewrite !requests_app, !responses_app, reply_requests.
    repeat split; eauto; apply app_nil_r.
  - destruct Hauth as [Hin Hm].
    split; [split; [split; assumption | auto]|].
    split; [split; [split; assumption | auto]|].
    split; [tauto|]. split; [tauto|].
    intros Hna. exfalso. apply Hna. split; assumption.
Qed.

(** The guard at three concrete interactions: a caller holding the community
    role, an interaction without a member, a caller without the role. *)
Lemma checkCommandCaller_contract_witness :
  returned (checkCommandCaller (makeChannelCall [])) allGood [] = None
  /\ responses
       (emitted (checkCommandCaller
                   (invoke JuiceworksGuildId "555" None "add-member" []))
                allGood [])
     = [ephemeral
          "This command can only be used in the Juiceworks Discord server."]
  /\ responses
       (emitted (checkCommandCaller
                   (invoke JuiceworksGuildId "555" (Some newcomer)
                           "add-member" []))
                allGood [])
     = [ephemeral "This command can only be used by Juiceworks members."]
  /\ requests
       (emitted (addMember
                   (invoke JuiceworksGuildId "555" (Some newcomer)
                           "add-member" [userOption "42"]))
                allGood []) = [].
Proof.
  split; [|split; [|split]].
  - destruct (checkCommandCaller_contract plainTables (makeChannelCall [])
                allGood []) as (_ & H & _).
    apply H. split.
    + split; [reflexivity | eexists; reflexivity].
    + exists juiceworksCaller. split; [reflexivity | simpl; auto].
  - destruct (checkCommandCaller_contract plainTables
                (invoke JuiceworksGuildId "555" None "add-member" [])
                allGood []) as (_ & _ & H & _).
    apply H. intros [_ [m Hm]]. discriminate Hm.
  - destruct (checkCommandCaller_contract plainTables
                (invoke JuiceworksGuildId "555" (Some newcomer) "add-member" [])
                allGood []) as (_ & _ & _ & H & _).
    apply H.
    + split; [reflexivity | eexists; reflexivity].
    + intros (m & Hm & Hin). injection Hm as <-. simpl in Hin. exact Hin.
  - destruct (checkCommandCaller_contract plainTables
                (invoke JuiceworksGuildId "555" (Some newcomer) "add-member"
                        [userOption "42"]) allGood []) as (_ & _ & _ & _ & H).
    apply H.
    intros [_ (m & Hm & Hin)]. injection Hm as <-. simpl in Hin. exact Hin.
Defined.

(* ===================================================================== *)
(** * make-channel *)
(* ===================================================================== *)

(** C5. [makeChannel] and its overwrites.  When the channel creation fails no
    overwrite is attempted and the response carries the error.  When it
    creates the channel [ch], the overwrites attempted are, in order, the
    allowance of view and send to the community role on [ch] and, only when
    that one succeeded, the denial of view to the guild's default role (the
    guild identifier as the subject) on [ch]; a failed overwrite is the last
    one.  When both succeed the one response is "Created channel: #" followed
    by the channel's name; and that response is only ever sent after exactly
    these two successful overwrites. *)
Theorem makeChannel_overwrites (u : strings.Unicode) (i : InteractionCreate)
    (d : Discord) (h : list Event) :
  let es := emitted (makeChannel u i) d h in
  (forall g n t e,
      In (EGuildChannelCreate g n t (Err e)) es ->
      overwrites es = []
      /\ responses es = [ephemeral ("Error creating channel: " +:+ e)])
  /\ (forall g n t ch,
      In (EGuildChannelCreate g n t (Ok ch)) es ->
      exists first,
        match first with
        | Some e =>
            overwrites es = [allowCommunity ch (Some e)]
            /\ responses es
               = [ephemeral ("Error setting channel permissions: " +:+ e)]
        | None =>
            exists second,
              overwrites es = [allowCommunity ch None; denyEveryone ch second]
              /\ match second with
                 | Some e =>
                     responses es
                     = [ephemeral ("Error setting channel permissions: " +:+ e)]
                 | None =>
                     responses es
                     = [ephemeral ("Created channel: #" +:+ Channel_Name ch)]
                 end
        end)
  /\ (forall name,
      responses es = [ephemeral ("Created channel: #" +:+ name)] ->
      exists g n t ch,
        In (EGuildChannelCreate g n t (Ok ch)) es
        /\ Channel_Name ch = name
        /\ overwrites es = [allowCommunity ch None; denyEveryone ch None]).
Proof.
  by_path (makeChannel_paths u i); expose; destruct rerr.
  all: split; [intros g n t e' Hin; in_cases Hin; split; reflexivity|].
  all: split; [intros g n t ch' Hin; in_cases Hin|].
  all: try (exists (Some e); split; reflexivity).
  all: try (exists None, (Some e); split; reflexivity).
  all: try (exists None, None; split; reflexivity).
  all: intros name Hname; simpl in Hname; try discriminate Hname.
  all: injection Hname as Hname; apply (inj (String.app _)) in Hname; subst name.
  all: exists JuiceworksGuildId, (normalize u (Option_Value o)),
         ChannelTypeGuildText, ch.
  all: split; [left; reflexivity | split; reflexivity].
Qed.

(** The three outcomes of a created channel, on concrete platforms. *)
Lemma makeChannel_overwrites_witness :
  (overwrites (emitted (makeChannel plainTables
                          (makeChannelCall [stringOption "  My Project  "]))
                       allGood [])
   = [allowCommunity projectChannel None; denyEveryone projectChannel None]
   /\ responses (emitted (makeChannel plainTables
                            (makeChannelCall [stringOption "  My Project  "]))
                         allGood [])
      = [ephemeral "Created channel: #my-project"])
  /\ (overwrites (emitted (makeChannel plainTables
                             (makeChannelCall [stringOption "  My Project  "]))
                          overwriteRefused [])
      = [allowCommunity projectChannel (Some "Missing Permissions")])
  /\ (overwrites (emitted (makeChannel plainTables
                             (makeChannelCall [stringOption "  My Project  "]))
                          (scripted (Ok newcomer) None
                                    (Err "Maximum number of channels reached")
                                    (fun _ => None)) [])
      = []).
Proof.
  split; [|split].
  - destruct (makeChannel_overwrites plainTables
                (makeChannelCall [stringOption "  My Project  "]) allGood [])
      as (_ & _ & H).
    destruct (H "my-project" eq_refl) as (g & n & t & ch & Hin & Hname & Hov).
    in_cases Hin. split; [exact Hov | reflexivity].
  - destruct (makeChannel_overwrites plainTables
                (makeChannelCall [stringOption "  My Project  "])
                overwriteRefused []) as (_ & H & _).
    destruct (H JuiceworksGuildId "my-project" ChannelTypeGuildText
                projectChannel) as ([e|] & Hfirst).
    + left; reflexivity.
    + destruct Hfirst as [Hov _]. rewrite Hov. vm_compute in Hov.
      injection Hov as <-. reflexivity.
    + destruct Hfirst as (second & Hov & _). vm_compute in Hov.
      discriminate Hov.
  - destruct (makeChannel_overwrites plainTables
                (makeChannelCall [stringOption "  My Project  "])
                (scripted (Ok newcomer) None
                          (Err "Maximum number of channels reached")
                          (fun _ => None)) []) as (H & _).
    apply (H JuiceworksGuildId "my-project" ChannelTypeGuildText
             "Maximum number of channels reached").
    left; reflexivity.
Defined.


(* ===================================================================== *)
(** * add-member *)
(* ===================================================================== *)

(** C6. [addMember] and the project-creator role.  Once the target member has
    been fetched: when the member holds the service-provider role no role
    grant is made and the requests end with the overwrite that allows the
    target in the invoking channel; when the member does not hold it, the
    project-creator role is granted right after the fetch, and the overwrite
    follows only when the grant succeeded: after a failed grant no overwrite
    is attempted. *)
Theorem addMember_role_grant (i : InteractionCreate) (d : Discord)
    (h : list Event) :
  let es := emitted (addMember i) d h in
  forall g uid member,
    In (EGuildMember g uid (Ok member)) es ->
    exists o user,
      g = JuiceworksGuildId /\ uid = User_ID user
      /\ (In ServicesRoleId (Roles member) ->
          List.filter isGrant es = []
          /\ exists perr,
               requests es
               = [EUserValue o user; EGuildMember g uid (Ok member);
                  allowTarget i user perr])
      /\ (~ In ServicesRoleId (Roles member) ->
          exists gerr,
            match gerr with
            | Some e =>
                requests es
                = [EUserValue o user; EGuildMember g uid (Ok member);
                   grantCreator user (Some e)]
                /\ overwrites es = []
                /\ responses es
                   = [ephemeral ("Error granting Project Creator role: " +:+ e)]
            | None =>
                exists perr,
                  requests es
                  = [EUserValue o user; EGuildMember g uid (Ok member);
                     grantCreator user None; allowTarget i user perr]
            end).
Proof.
  by_path (addMember_paths i); intros g uid member' Hin; expose;
    try destruct (hasRole ServicesRoleId (Roles member)) eqn:Hs;
    try (destruct rerr); try (destruct rerr1); try (destruct rerr2);
    in_cases Hin.
  all: try match goal with
           | Hs : hasRole _ _ = true |- _ => apply hasRole_true_In in Hs
           | Hs : hasRole _ _ = false |- _ => apply hasRole_false_not_In in Hs
           end.
  all: try contradiction.
  all: exists o, user; split; [reflexivity|]; split; [reflexivity|].
  all: split; [intros Hp | intros Hnp]; try contradiction.
  all: try (split; [reflexivity | eexists; reflexivity]).
  all: try (exists (Some e); repeat split; reflexivity).
  all: try (exists None; eexists; reflexivity).
Qed.

(** A target who is a service provider, and a newcomer whose grant fails. *)
Lemma addMember_role_grant_witness :
  (List.filter isGrant
     (emitted (addMember (addMemberCall "555"))
              (scripted (Ok provider) None (Ok projectChannel) (fun _ => None))
              []) = []
   /\ List.length
        (overwrites
           (emitted (addMember (addMemberCall "555"))
              (scripted (Ok provider) None (Ok projectChannel) (fun _ => None))
              [])) = 1%nat)
  /\ overwrites
       (emitted (addMember (addMemberCall "555"))
          (scripted (Ok newcomer) (Some "Missing Access") (Ok projectChannel)
                    (fun _ => None))
          []) = [].
Proof.
  split.
  - destruct (addMember_role_grant (addMemberCall "555")
                (scripted (Ok provider) None (Ok projectChannel) (fun _ => None))
                [] JuiceworksGuildId "42" provider)
      as (o & user & _ & _ & Hp & _).
    + right; left; reflexivity.
    + destruct Hp as (Hgrants & perr & Hreq).
      * simpl. auto.
      * split; [exact Hgrants | reflexivity].
  - destruct (addMember_role_grant (addMemberCall "555")
                (scripted (Ok newcomer) (Some "Missing Access")
                          (Ok projectChannel) (fun _ => None))
                [] JuiceworksGuildId "42" newcomer)
      as (o & user & _ & _ & _ & Hnp).
    + right; left; reflexivity.
    + destruct Hnp as ([e|] & Hg).
      * simpl. tauto.
      * apply Hg.
      * destruct Hg as (perr & Hreq). vm_compute in Hreq. discriminate Hreq.
Defined.

(** C7. An [addMember] invoked in the internal channel is rejected whoever
    the caller is: it sends no request to the platform (no member fetch, no
    role grant, no permission overwrite), and its one response is a
    rejection, which for an authorized caller is "This command cannot be
    used in the internal channel.". *)
Theorem addMember_internal_channel (i : InteractionCreate) (d : Discord)
    (h : list Event) :
  ChannelID i = InternalChannelId ->
  let es := emitted (addMember i) d h in
  requests es = []
  /\ List.filter isFetch es = []
  /\ List.filter isGrant es = []
  /\ overwrites es = []
  /\ (exists content,
        responses es = [ephemeral content]
        /\ In content
             ["This command can only be used in the Juiceworks Discord server.";
              "This command can only be used by Juiceworks members.";
              "This command cannot be used in the internal channel."])
  /\ (authorized i ->
      responses es
      = [ephemeral "This command cannot be used in the internal channel."]).
Proof.
  intros Hch. by_path (addMember_paths i); try contradiction; expose;
    destruct rerr.
  all: repeat (split; [reflexivity|]).
  all: split; [eexists; split; [reflexivity | simpl; tauto]|].
  all: try reflexivity.
  all: intros [Hin Hm]; contradiction.
Qed.

Lemma addMember_internal_channel_witness :
  responses (emitted (addMember (addMemberCall InternalChannelId)) allGood [])
  = [ephemeral "This command cannot be used in the internal channel."]
  /\ requests (emitted (addMember
                          (invoke JuiceworksGuildId InternalChannelId
                                  (Some newcomer) "add-member"
                                  [userOption "42"]))
                       allGood []) = [].
Proof.
  split.
  - destruct (addMember_internal_channel (addMemberCall InternalChannelId)
                allGood [] eq_refl) as (_ & _ & _ & _ & _ & H).
    apply H. split.
    + split; [reflexivity | eexists; reflexivity].
    + exists juiceworksCaller. split; [reflexivity | simpl; auto].
  - apply (addMember_internal_channel
             (invoke JuiceworksGuildId InternalChannelId (Some newcomer)
                     "add-member" [userOption "42"]) allGood [] eq_refl).
Defined.

(** A successful grant puts the role among the member's roles, and the
    events that are not role operations leave it there. *)
Lemma rolesAfter_grant (guildID userID role : string) (held : list string) :
  In role
     (applyRoleEvent guildID userID held
        (EGuildMemberRoleAdd guildID userID role None)).
Proof.
  unfold applyRoleEvent. rewrite !String.eqb_refl. cbn [andb].
  destruct (hasRole role held) eqn:Hheld.
  - apply hasRole_In. exact Hheld.
  - left. reflexivity.
Qed.

(** C10. [addMember] is not atomic.  No path of it removes a role.  When the
    role grant succeeded and the overwrite after it failed, the handler ends
    with error responses only (the one of the permission helper and its own),
    and after its events the target still holds the project-creator role,
    whatever roles it held before. *)
Theorem addMember_grant_not_reverted (i : InteractionCreate) (d : Discord)
    (h : list Event) :
  let es := emitted (addMember i) d h in
  List.filter isRemoval es = []
  /\ forall g uid r c t ty a dn e,
      In (EGuildMemberRoleAdd g uid r None) es ->
      In (EChannelPermissionSet c t ty a dn (Some e)) es ->
      g = JuiceworksGuildId /\ r = ProjectCreatorRoleId
      /\ responses es
         = [ephemeral ("Error setting channel permissions: " +:+ e);
            ephemeral ("Error adding member to channel: " +:+ e)]
      /\ (exists pre post,
            es = (pre ++ EGuildMemberRoleAdd g uid r None :: post)%list
            /\ List.filter isGrant post = []
            /\ List.filter isRemoval post = [])
      /\ forall held,
           In ProjectCreatorRoleId (rolesAfter JuiceworksGuildId uid held es).
Proof.
  by_path (addMember_paths i); expose;
    try destruct (hasRole ServicesRoleId (Roles member)) eqn:Hs;
    try (destruct rerr); try (destruct rerr1); try (destruct rerr2).
  all: split; [reflexivity|].
  all: intros g uid r c t ty a dn e' Hgrant Hfail.
  all: in_cases Hgrant; in_cases Hfail.
  all: split; [reflexivity|]; split; [reflexivity|]; split; [reflexivity|].
  all: split;
    [ exists [EUserValue o user;
              EGuildMember JuiceworksGuildId (User_ID user) (Ok member)];
      eexists; split; [reflexivity | split; reflexivity]
    | intros held; unfold rolesAfter; cbn [fold_left app];
      apply rolesAfter_grant ].
Qed.

(** The grant succeeds, the overwrite is refused: two error responses, and
    the newcomer holds the project-creator role afterwards. *)
Lemma addMember_grant_not_reverted_witness :
  In (grantCreator {| User_ID := "42"; Username := "target" |} None)
     (emitted (addMember (addMemberCall "555")) overwriteRefused [])
  /\ responses (emitted (addMember (addMemberCall "555")) overwriteRefused [])
     = [ephemeral "Error setting channel permissions: Missing Permissions";
        ephemeral "Error adding member to channel: Missing Permissions"]
  /\ In ProjectCreatorRoleId
        (rolesAfter JuiceworksGuildId "42" (Roles newcomer)
           (emitted (addMember (addMemberCall "555")) overwriteRefused [])).
Proof.
  destruct (addMember_grant_not_reverted (addMemberCall "555")
              overwriteRefused []) as (_ & H).
  destruct (H JuiceworksGuildId "42" ProjectCreatorRoleId "555" "42"
              PermissionOverwriteTypeMember
              (Z.lor PermissionViewChannel PermissionSendMessages) 0%Z
              "Missing Permissions")
    as (_ & _ & Hresp & _ & Hroles).
  - right; right; left; reflexivity.
  - right; right; right; left; reflexivity.
  - split; [right; right; left; reflexivity|].
    split; [exact Hresp | apply Hroles].
Defined.

(* ===================================================================== *)
(** * How many responses an interaction gets *)
(* ===================================================================== *)

(** [makeChannel] sends exactly one response on every path: after a failed
    [channelPermissions], which has responded, it returns without a
    response of its own. *)
Lemma makeChannel_one_response (u : strings.Unicode) (i : InteractionCreate)
    (d : Discord) (h : list Event) :
  List.length (responses (emitted (makeChannel u i) d h)) = 1%nat.
Proof. by_path (makeChannel_paths u i); expose; destruct rerr; reflexivity. Qed.

(** [addMember] sends one response on every path but one: after a failed
    [channelPermissions], which has responded, it responds again. *)
Lemma addMember_response_count (i : InteractionCreate) (d : Discord)
    (h : list Event) :
  List.length (responses (emitted (addMember i) d h))
  = if existsb isFailedOverwrite (emitted (addMember i) d h) then 2%nat
    else 1%nat.
Proof.
  by_path (addMember_paths i); expose;
    try destruct (hasRole ServicesRoleId (Roles member));
    try (destruct rerr); try (destruct rerr1); try (destruct rerr2);
    reflexivity.
Qed.

(** Every response of either handler is an ephemeral channel message. *)
Lemma responses_ephemeral (u : strings.Unicode) (i : InteractionCreate)
    (d : Discord) (h : list Event) :
  Forall isEphemeral (responses (emitted (makeChannel u i) d h))
  /\ Forall isEphemeral (responses (emitted (addMember i) d h)).
Proof.
  split.
  - by_path (makeChannel_paths u i); expose; destruct rerr;
      repeat constructor.
  - by_path (addMember_paths i); expose;
      try destruct (hasRole ServicesRoleId (Roles member));
      try (destruct rerr); try (destruct rerr1); try (destruct rerr2);
      repeat constructor.
Qed.

(** C1, at the input where it fails.  An authorized caller adds a newcomer in
    a project channel; the member fetch and the role grant succeed and the
    platform refuses the permission overwrite: [addMember] sends two
    responses to the one interaction, the one of [channelPermissions] and
    then its own. *)
Theorem addMember_responds_twice :
  emitted (addMember (addMemberCall "555")) overwriteRefused []
  = [EUserValue (userOption "42") {| User_ID := "42"; Username := "target" |};
     EGuildMember JuiceworksGuildId "42" (Ok newcomer);
     EGuildMemberRoleAdd JuiceworksGuildId "42" ProjectCreatorRoleId None;
     EChannelPermissionSet "555" "42" PermissionOverwriteTypeMember
       (Z.lor PermissionViewChannel PermissionSendMessages) 0
       (Some "Missing Permissions");
     EInteractionRespond "interaction-1"
       (ephemeral "Error setting channel permissions: Missing Permissions")
       None;
     ELog "Error setting channel permissions: %v"
          [ArgError "Missing Permissions"];
     ELog "Error adding member to channel: %v"
          [ArgError "Missing Permissions"];
     EInteractionRespond "interaction-1"
       (ephemeral "Error adding member to channel: Missing Permissions")
       None]
  /\ List.length
       (responses
          (emitted (addMember (addMemberCall "555")) overwriteRefused []))
     = 2%nat.
Proof. split; reflexivity. Qed.

(* ===================================================================== *)
(** * Option validation and the channel name *)
(* ===================================================================== *)

(** C2, as the code has it.  For an authorized caller, [makeChannel] gets
    past its option test exactly when there is at least one option and the
    first one is string-typed, whatever follows it: it then goes on to the
    length test and the channel creation; otherwise its only events are the
    reply "This command requires a channel name.", so that no request was
    made before.  For an authorized caller outside the internal channel,
    [addMember] gets past its option test exactly when there is at least one
    option and the first one is user-typed: its first event is then the
    resolution of that option to a user; otherwise its only events are the
    reply "This command requires a user.". *)
Theorem option_validation (u : strings.Unicode) (i : InteractionCreate)
    (d : Discord) (h : list Event) :
  authorized i ->
  (firstOptionIs ApplicationCommandOptionString i
   <-> (exists rerr,
          emitted (makeChannel u i) d h
          = reply i "Channel name must be between 2 and 100 characters." rerr)
       \/ (exists n r tl,
          emitted (makeChannel u i) d h
          = EGuildChannelCreate JuiceworksGuildId n ChannelTypeGuildText r :: tl))
  /\ (~ firstOptionIs ApplicationCommandOptionString i
      <-> exists rerr,
          emitted (makeChannel u i) d h
          = reply i "This command requires a channel name." rerr)
  /\ (ChannelID i <> InternalChannelId ->
      (firstOptionIs ApplicationCommandOptionUser i
       <-> exists o user tl,
           emitted (addMember i) d h = EUserValue o user :: tl)
      /\ (~ firstOptionIs ApplicationCommandOptionUser i
          <-> exists rerr,
              emitted (addMember i) d h
              = reply i "This command requires a user." rerr)).
Proof.
  intros Hauth. split; [|split; [|intros Hch; split]].
  - by_path (makeChannel_paths u i); authorized_only Hauth.
    + split; [intros; contradiction|].
      intros [(r & Heq) | (n & r & tl & Heq)]; destruct rerr, r; discriminate Heq.
    + split; [intros _; left; eauto|]. intros _. eapply firstOptionIs_intro; eauto.
    + split; [intros _; right; eauto|]. intros _. eapply firstOptionIs_intro; eauto.
    + split; [intros _; right; eauto|]. intros _. eapply firstOptionIs_intro; eauto.
    + split; [intros _; right; eauto|]. intros _. eapply firstOptionIs_intro; eauto.
    + split; [intros _; right; eauto|]. intros _. eapply firstOptionIs_intro; eauto.
  - by_path (makeChannel_paths u i); authorized_only Hauth.
    + split; [intros _; eauto | intros _; assumption].
    + split; [intros Hn; exfalso; apply Hn; eapply firstOptionIs_intro; eauto|].
      intros (r & Heq); destruct rerr, r; discriminate Heq.
    + split; [intros Hn; exfalso; apply Hn; eapply firstOptionIs_intro; eauto|].
      intros (r & Heq); destruct rerr, r; discriminate Heq.
    + split; [intros Hn; exfalso; apply Hn; eapply firstOptionIs_intro; eauto|].
      intros (r & Heq); destruct rerr, r; discriminate Heq.
    + split; [intros Hn; exfalso; apply Hn; eapply firstOptionIs_intro; eauto|].
      intros (r & Heq); destruct rerr, r; discriminate Heq.
    + split; [intros Hn; exfalso; apply Hn; eapply firstOptionIs_intro; eauto|].
      intros (r & Heq); destruct rerr, r; discriminate Heq.
  - by_path (addMember_paths i); authorized_only Hauth; try contradiction.
    + split; [intros; contradiction|].
      intros (o & user & tl & Heq); destruct rerr; discriminate Heq.
    + split; [intros _; eauto|]. intros _. eapply firstOptionIs_intro; eauto.
    + split; [intros _; eauto|]. intros _. eapply firstOptionIs_intro; eauto.
    + split; [intros _; eauto|]. intros _. eapply firstOptionIs_intro; eauto.
    + split; [intros _; eauto|]. intros _. eapply firstOptionIs_intro; eauto.
  - by_path (addMember_paths i); authorized_only Hauth; try contradiction.
    + split; [intros _; eauto | intros _; assumption].
    + split; [intros Hn; exfalso; apply Hn; eapply firstOptionIs_intro; eauto|].
      intros (r & Heq); destruct r; discriminate Heq.
    + split; [intros Hn; exfalso; apply Hn; eapply firstOptionIs_intro; eauto|].
      intros (r & Heq); destruct r; discriminate Heq.
    + split; [intros Hn; exfalso; apply Hn; eapply firstOptionIs_intro; eauto|].
      intros (r & Heq); destruct r; discriminate Heq.
    + split; [intros Hn; exfalso; apply Hn; eapply firstOptionIs_intro; eauto|].
      intros (r & Heq); destruct r; discriminate Heq.
Qed.

Lemma juiceworksCaller_authorized guild_channel name options :
  authorized (invoke JuiceworksGuildId guild_channel (Some juiceworksCaller)
                     name options).
Proof.
  split.
  - split; [reflexivity | eexists; reflexivity].
  - exists juiceworksCaller. split; [reflexivity | simpl; auto].
Defined.

(** One string option is accepted, no option is refused; one user option is
    accepted. *)
Lemma option_validation_witness :
  (exists n r tl,
     emitted (makeChannel plainTables (makeChannelCall [stringOption "ab"]))
             allGood []
     = EGuildChannelCreate JuiceworksGuildId n ChannelTypeGuildText r :: tl)
  /\ (exists rerr,
        emitted (makeChannel plainTables (makeChannelCall [])) allGood []
        = reply (makeChannelCall []) "This command requires a channel name."
                rerr)
  /\ (exists o user tl,
        emitted (addMember (addMemberCall "555")) allGood []
        = EUserValue o user :: tl).
Proof.
  split; [|split].
  - destruct (option_validation plainTables
                (makeChannelCall [stringOption "ab"]) allGood []
                (juiceworksCaller_authorized _ _ _)) as (H & _).
    destruct (proj1 H) as [(rerr & Heq) | Hcreate].
    + exists (stringOption "ab"), []. split; reflexivity.
    + discriminate Heq.
    + exact Hcreate.
  - destruct (option_validation plainTables (makeChannelCall []) allGood []
                (juiceworksCaller_authorized _ _ _)) as (_ & H & _).
    apply H. intros (o & rest & Ho & _). discriminate Ho.
  - destruct (option_validation plainTables (addMemberCall "555") allGood []
                (juiceworksCaller_authorized _ _ _)) as (_ & _ & H).
    destruct H as (H & _).
    + intros Heq. discriminate Heq.
    + apply H. exists (userOption "42"), []. split; reflexivity.
Defined.

(** C2 as the spec words it fails: with two options, the first of the right
    type, there is not exactly one option and both handlers go on past their
    option test: [makeChannel] creates the channel named by the first option,
    [addMember] adds the user of the first option. *)
Lemma exactly_one_option_counterexample :
  let mc := makeChannelCall [stringOption "ab"; stringOption "cd"] in
  let am :=
    invoke JuiceworksGuildId "555" (Some juiceworksCaller) "add-member"
           [userOption "42"; userOption "43"] in
  (authorized mc
   /\ ~ exactlyOneOption ApplicationCommandOptionString mc
   /\ emitted (makeChannel plainTables mc) allGood []
      = [EGuildChannelCreate JuiceworksGuildId "ab" ChannelTypeGuildText
           (Ok projectChannel);
         allowCommunity projectChannel None;
         denyEveryone projectChannel None;
         ELog "Created channel: %v" [ArgChannel projectChannel];
         EInteractionRespond "interaction-1"
           (ephemeral "Created channel: #my-project") None])
  /\ (authorized am
      /\ ChannelID am <> InternalChannelId
      /\ ~ exactlyOneOption ApplicationCommandOptionUser am
      /\ emitted (addMember am) allGood []
         = [EUserValue (userOption "42")
              {| User_ID := "42"; Username := "target" |};
            EGuildMember JuiceworksGuildId "42" (Ok newcomer);
            EGuildMemberRoleAdd JuiceworksGuildId "42" ProjectCreatorRoleId
              None;
            EChannelPermissionSet "555" "42" PermissionOverwriteTypeMember
              (Z.lor PermissionViewChannel PermissionSendMessages) 0 None;
            ELog "Added %s (%s) to channel %s."
                 [ArgUser {| User_ID := "42"; Username := "target" |};
                  ArgString "<@42>"; ArgString "555"];
            EInteractionRespond "interaction-1"
              (ephemeral "Added <@42> to the channel.") None]).
Proof.
  cbv zeta. split.
  - split; [apply juiceworksCaller_authorized|].
    split; [intros (o & Ho & _); discriminate Ho | reflexivity].
  - split; [apply juiceworksCaller_authorized|].
    split; [intros Heq; discriminate Heq|].
    split; [intros (o & Ho & _); discriminate Ho | reflexivity].
Qed.



(** The normalization on the names of the examples, whatever the Unicode
    tables are. *)
Lemma normalize_examples (u : strings.Unicode) :
  normalize u "  My Project  " = "my-project"
  /\ normalize u "  Cool Project!!  " = "cool-project!!"
  /\ normalize u "x" = "x"
  /\ len (normalize u "  My Project  ") = 10%Z
  /\ len (normalize u (string_of_list_ascii (repeat "a"%char 101))) = 101%Z.
Proof. repeat split; reflexivity. Qed.



(* ===================================================================== *)
(** * The dispatcher *)
(* ===================================================================== *)

(** The two registered names reach their handlers. *)
Lemma commandHandlers_lookup (u : strings.Unicode) :
  commandHandlers u !! "make-channel" = Some (makeChannel u)
  /\ commandHandlers u !! "add-member" = Some addMember.
Proof.
  unfold commandHandlers. split.
  - apply lookup_insert_eq.
  - rewrite lookup_insert_ne by discriminate. apply lookup_insert_eq.
Qed.

(** C9. An interaction whose command name is neither "make-channel" nor
    "add-member" finds no handler in the table: the dispatcher runs none and
    emits nothing, no response and no other event. *)
Theorem unknown_command_ignored (u : strings.Unicode) (i : InteractionCreate)
    (d : Discord) (h : list Event) :
  Name (ApplicationCommandData i) <> "make-channel" ->
  Name (ApplicationCommandData i) <> "add-member" ->
  commandHandlers u !! Name (ApplicationCommandData i) = None
  /\ onInteractionCreate u i d h = (tt, [])
  /\ responses (emitted (onInteractionCreate u i) d h) = [].
Proof.
  intros Hmc Ham.
  assert (Hnone : commandHandlers u !! Name (ApplicationCommandData i) = None).
  { unfold commandHandlers.
    rewrite lookup_insert_ne by congruence.
    rewrite lookup_insert_ne by congruence.
    apply lookup_empty. }
  split; [exact Hnone|].
  unfold emitted, onInteractionCreate. rewrite Hnone. split; reflexivity.
Qed.

Lemma unknown_command_ignored_witness :
  emitted (onInteractionCreate plainTables
             (invoke JuiceworksGuildId "555" (Some juiceworksCaller) "ping" []))
          allGood [] = [].
Proof.
  destruct (unknown_command_ignored plainTables
              (invoke JuiceworksGuildId "555" (Some juiceworksCaller) "ping" [])
              allGood []) as (_ & H & _).
  - intros Heq. discriminate Heq.
  - intros Heq. discriminate Heq.
  - unfold emitted. rewrite H. reflexivity.
Defined.

(* ===================================================================== *)
(** * Replies and their delivery *)
(* ===================================================================== *)

(** Whatever the platform answers, a response whose delivery failed is
    followed at once by the log line of that failure, and that line is logged
    at no other time: in the guard, in the permission helper and in both
    handlers. *)
Theorem delivery_failures_logged (u : strings.Unicode) (i : InteractionCreate)
    (cps : channelPermissionSetup) (d : Discord) (h : list Event) :
  deliveryFailuresLogged (emitted (checkCommandCaller i) d h) = true
  /\ deliveryFailuresLogged (emitted (channelPermissions cps) d h) = true
  /\ deliveryFailuresLogged (emitted (makeChannel u i) d h) = true
  /\ deliveryFailuresLogged (emitted (addMember i) d h) = true.
Proof.
  split; [|split; [|split]].
  - unfold emitted.
    destruct (run_checkCommandCaller i d h)
      as [(_ & rerr & ->) | [(_ & _ & rerr & ->) | (_ & ->)]];
      try destruct rerr; cbn; rewrite ?String.eqb_refl; reflexivity.
  - unfold emitted. pose proof (run_channelPermissions cps d h) as Hrun.
    destruct (onChannelPermissionSet d h _ _ _ _ _) as [e|].
    + destruct Hrun as (rerr & ->). destruct rerr; cbn;
        rewrite ?String.eqb_refl; reflexivity.
    + rewrite Hrun. reflexivity.
  - by_path (makeChannel_paths u i); expose; destruct rerr; cbn;
      rewrite ?String.eqb_refl; reflexivity.
  - by_path (addMember_paths i); expose;
      try destruct (hasRole ServicesRoleId (Roles member));
      try (destruct rerr); try (destruct rerr1); try (destruct rerr2);
      cbn; rewrite ?String.eqb_refl; reflexivity.
Qed.

(* ===================================================================== *)
(** * What the handlers never do *)
(* ===================================================================== *)

(** [makeChannel] stays within channel provisioning: it never resolves a
    user, fetches a member, grants or removes a role; it creates at most one
    channel, in the configured guild; and every overwrite it attempts is a
    role overwrite on a channel that this very run created. *)
Theorem makeChannel_scope (u : strings.Unicode) (i : InteractionCreate)
    (d : Discord) (h : list Event) :
  let es := emitted (makeChannel u i) d h in
  List.filter isUserLookup es = []
  /\ List.filter isFetch es = []
  /\ List.filter isGrant es = []
  /\ List.filter isRemoval es = []
  /\ (List.length (List.filter isCreation es) <= 1)%nat
  /\ Forall (fun e => forall g, guildOf e = Some g -> g = JuiceworksGuildId) es
  /\ (forall c t ty a dn o,
        In (EChannelPermissionSet c t ty a dn o) es ->
        ty = PermissionOverwriteTypeRole
        /\ exists g n ct ch,
             In (EGuildChannelCreate g n ct (Ok ch)) es /\ c = Channel_ID ch).
Proof.
  by_path (makeChannel_paths u i); expose; destruct rerr.
  all: do 4 (split; [reflexivity|]).
  all: split; [cbn; lia|].
  all: split; [repeat constructor; cbn; intros; congruence|].
  all: intros c t ty a dn out Hin; in_cases Hin.
  all: split; [reflexivity|].
  all: exists JuiceworksGuildId, (normalize u (Option_Value o)),
         ChannelTypeGuildText, ch; split; [left; reflexivity | reflexivity].
Qed.

(** [addMember] stays within membership: it never creates a channel and never
    removes a role; it makes at most one user lookup, one member fetch, one
    role grant and one overwrite; the fetch and the grant are in the
    configured guild; the only option it ever resolves is the first of the
    invocation; the member it fetches and the member it grants a role are the
    user that first option resolved to; the only role it ever grants is the
    project-creator role; and its overwrite is a member overwrite, with
    nothing denied, on the invoking channel, for the user the first option
    resolved to. *)
Theorem addMember_scope (i : InteractionCreate) (d : Discord) (h : list Event) :
  let es := emitted (addMember i) d h in
  let resolved (target : string) :=
    exists opt rest user,
      Options (ApplicationCommandData i) = opt :: rest
      /\ In (EUserValue opt user) es /\ target = User_ID user in
  List.filter isCreation es = []
  /\ List.filter isRemoval es = []
  /\ (List.length (List.filter isUserLookup es) <= 1)%nat
  /\ (List.length (List.filter isFetch es) <= 1)%nat
  /\ (List.length (List.filter isGrant es) <= 1)%nat
  /\ (List.length (overwrites es) <= 1)%nat
  /\ Forall (fun e => forall g, guildOf e = Some g -> g = JuiceworksGuildId) es
  /\ (forall opt user,
        In (EUserValue opt user) es ->
        exists rest, Options (ApplicationCommandData i) = opt :: rest)
  /\ (forall g uid r, In (EGuildMember g uid r) es -> resolved uid)
  /\ (forall g uid r o,
        In (EGuildMemberRoleAdd g uid r o) es ->
        r = ProjectCreatorRoleId /\ resolved uid)
  /\ (forall c t ty a dn o,
        In (EChannelPermissionSet c t ty a dn o) es ->
        c = ChannelID i /\ ty = PermissionOverwriteTypeMember
        /\ a = Z.lor PermissionViewChannel PermissionSendMessages
        /\ dn = 0%Z
        /\ resolved t).
Proof.
  by_path (addMember_paths i); expose;
    try destruct (hasRole ServicesRoleId (Roles member));
    try (destruct rerr); try (destruct rerr1); try (destruct rerr2).
  all: do 2 (split; [reflexivity|]).
  all: do 4 (split; [cbn; lia|]).
  all: split; [repeat constructor; cbn; intros; congruence|].
  all: split; [intros opt usr Hin; in_cases Hin; eauto|].
  all: split;
    [ intros g uid r Hin; in_cases Hin;
      exists o, rest, user;
      (split; [assumption|]; split; [left; reflexivity | reflexivity]) |].
  all: split;
    [ intros g uid r out Hin; in_cases Hin;
      (split; [reflexivity|]); exists o, rest, user;
      (split; [assumption|]; split; [left; reflexivity | reflexivity]) |].
  all: intros c t ty a dn out Hin; in_cases Hin.
  all: do 4 (split; [reflexivity|]).
  all: exists o, rest, user.
  all: split; [assumption|]; split; [left; reflexivity | reflexivity].
Qed.

(** With two user options only the first is resolved, and the overwrite is
    for its user. *)
Lemma addMember_scope_witness :
  let am :=
    invoke JuiceworksGuildId "555" (Some juiceworksCaller) "add-member"
           [userOption "42"; userOption "43"] in
  overwrites (emitted (addMember am) allGood [])
  = [EChannelPermissionSet "555" "42" PermissionOverwriteTypeMember
       (Z.lor PermissionViewChannel PermissionSendMessages) 0 None]
  /\ exists rest,
       Options (ApplicationCommandData am) = userOption "42" :: rest.
Proof.
  cbv zeta. split; [reflexivity|].
  destruct (addMember_scope
              (invoke JuiceworksGuildId "555" (Some juiceworksCaller)
                      "add-member" [userOption "42"; userOption "43"])
              allGood [])
    as (_ & _ & _ & _ & _ & _ & _ & Hfirst & _).
  apply (Hfirst (userOption "42") {| User_ID := "42"; Username := "target" |}).
  left. reflexivity.
Defined.

(* ===================================================================== *)
(** * The success response of add-member *)
(* ===================================================================== *)

Lemma bytes_append (a b : string) : bytes (a +:+ b) = (bytes a ++ bytes b)%list.
Proof.
  induction a as [|c a IH]; [reflexivity|].
  change (c :: bytes (a +:+ b) = c :: (bytes a ++ bytes b)%list).
  now rewrite IH.
Qed.

Lemma bytes_inj (a b : string) : bytes a = bytes b -> a = b.
Proof.
  revert b. induction a as [|c a IH]; intros [|c' b] Heq;
    try discriminate Heq; [reflexivity|].
  injection Heq as -> Heq. f_equal. apply IH. exact Heq.
Qed.

Lemma append_assoc (a b c : string) : (a +:+ b) +:+ c = a +:+ (b +:+ c).
Proof.
  apply bytes_inj. now rewrite !bytes_append, app_assoc.
Qed.

(** Appending the same text to two strings that give the same result. *)
Lemma append_inv_tail (a b s : string) : a +:+ s = b +:+ s -> a = b.
Proof.
  intros Heq. apply bytes_inj.
  apply (f_equal bytes) in Heq. rewrite !bytes_append in Heq.
  eapply app_inv_tail. exact Heq.
Qed.

(** [addMember] answers "Added <@id> to the channel." exactly when it
    resolved the first option of the invocation to the user [id] and the
    overwrite for that user succeeded; it is then its only response, and no
    request of the run was answered with an error: success is never reported
    after a failure. *)
Theorem addMember_success (i : InteractionCreate) (d : Discord)
    (h : list Event) (id : string) :
  let es := emitted (addMember i) d h in
  (In (ephemeral ("Added <@" +:+ id +:+ "> to the channel.")) (responses es)
   <-> exists o rest user,
         Options (ApplicationCommandData i) = o :: rest
         /\ User_ID user = id /\ In (EUserValue o user) es
         /\ In (allowTarget i user None) es)
  /\ (In (ephemeral ("Added <@" +:+ id +:+ "> to the channel.")) (responses es) ->
      responses es = [ephemeral ("Added <@" +:+ id +:+ "> to the channel.")]
      /\ existsb isFailedRequest es = false).
Proof.
  assert (Hform : forall a : string,
             "Added " +:+ ("<@" +:+ a +:+ ">") +:+ " to the channel."
             = "Added <@" +:+ a +:+ "> to the channel.").
  { intros a.
    change ("Added <@" +:+ ((a +:+ ">") +:+ " to the channel.")
            = "Added <@" +:+ (a +:+ (">" +:+ " to the channel."))).
    now rewrite append_assoc. }
  assert (Hcancel : forall a b : string,
             ephemeral ("Added <@" +:+ a +:+ "> to the channel.")
             = ephemeral ("Added <@" +:+ b +:+ "> to the channel.") -> a = b).
  { intros a b Heq. injection Heq as Heq.
    change (a +:+ "> to the channel." = b +:+ "> to the channel.") in Heq.
    eapply append_inv_tail. exact Heq. }
  by_path (addMember_paths i); expose; unfold Mention, allowTarget;
    rewrite ?Hform;
    try destruct (hasRole ServicesRoleId (Roles member));
    try (destruct rerr); try (destruct rerr1); try (destruct rerr2).
  all: split; [split|].
  all: try (intros Hin; in_cases Hin; fail).
  all: try (intros (o' & rest' & user' & _ & _ & Hu & Hin);
            in_cases Hu; in_cases Hin; fail).
  all: try (intros (o' & rest' & user' & _ & <- & Hu & Hin); in_cases Hu; cbn;
            left; reflexivity).
  all: intros Hin; cbn in Hin; destruct Hin as [Hin|[]];
    apply Hcancel in Hin; subst id.
  all: try (exists o, rest, user; split; [assumption|]; split; [reflexivity|];
            split; [left; reflexivity | cbn; tauto]).
  all: split; reflexivity.
Qed.

(** With two user options the user of the first is the one added, and the
    answer names that user. *)
Lemma addMember_success_witness :
  let am :=
    invoke JuiceworksGuildId "555" (Some juiceworksCaller) "add-member"
           [userOption "42"; userOption "43"] in
  In (ephemeral "Added <@42> to the channel.")
     (responses (emitted (addMember am) allGood []))
  /\ responses (emitted (addMember am) allGood [])
     = [ephemeral "Added <@42> to the channel."]
  /\ existsb isFailedRequest (emitted (addMember am) allGood []) = false.
Proof.
  cbv zeta.
  assert (Hin : In (ephemeral ("Added <@" +:+ "42" +:+ "> to the channel."))
                   (responses
                      (emitted
                         (addMember
                            (invoke JuiceworksGuildId "555"
                                    (Some juiceworksCaller) "add-member"
                                    [userOption "42"; userOption "43"]))
                         allGood [])))
    by (left; reflexivity).
  split; [exact Hin|].
  exact (proj2 (addMember_success _ allGood [] "42") Hin).
Defined.

(* ===================================================================== *)
(** * The registered commands and the handler table *)
(* ===================================================================== *)

Lemma dispatch_makeChannel (u : strings.Unicode) (i : InteractionCreate) :
  Name (ApplicationCommandData i) = "make-channel" ->
  onInteractionCreate u i = makeChannel u i.
Proof.
  intros Hn. unfold onInteractionCreate. rewrite Hn.
  unfold commandHandlers. now rewrite lookup_insert_eq.
Qed.

Lemma dispatch_addMember (u : strings.Unicode) (i : InteractionCreate) :
  Name (ApplicationCommandData i) = "add-member" ->
  onInteractionCreate u i = addMember i.
Proof.
  intros Hn. unfold onInteractionCreate. rewrite Hn.
  unfold commandHandlers.
  rewrite lookup_insert_ne by discriminate. now rewrite lookup_insert_eq.
Qed.

(** The names that have a handler are exactly the names of the registered
    commands: no command is registered without a handler and no handler is
    left without its command. *)
Theorem handlers_match_commands (u : strings.Unicode) :
  dom (commandHandlers u)
  = (list_to_set (map Command_Name commands) : gset string).
Proof.
  unfold commandHandlers, commands. cbn [map list_to_set].
  rewrite !dom_insert_L, dom_empty_L. set_solver.
Qed.

(** An invocation that the platform builds from a registered command
    always gets past the option test of its handler: the dispatcher finds
    the handler of that name, and no response of the run is one of the two
    option refusals. *)
Theorem registered_invocation_accepted (u : strings.Unicode)
    (c : ApplicationCommand) (i : InteractionCreate) (d : Discord)
    (h : list Event) :
  In c commands -> conforms c i ->
  is_Some (commandHandlers u !! Name (ApplicationCommandData i))
  /\ existsb isOptionRefusal (responses (emitted (onInteractionCreate u i) d h))
     = false.
Proof.
  intros Hc (Hname & _ & Hopts).
  destruct Hc as [<- | [<- | []]]; cbn in Hname, Hopts.
  - rewrite Hname. split; [eexists; apply commandHandlers_lookup|].
    rewrite (dispatch_makeChannel u i Hname).
    inversion Hopts as [|o co rest crest [_ Hty] Hrest Ho]; subst.
    assert (Hfirst : firstOptionIs ApplicationCommandOptionString i)
      by (eapply firstOptionIs_intro; eauto).
    by_path (makeChannel_paths u i); expose; try contradiction;
      destruct rerr; reflexivity.
  - rewrite Hname. split; [eexists; apply commandHandlers_lookup|].
    rewrite (dispatch_addMember u i Hname).
    inversion Hopts as [|o co rest crest [_ Hty] Hrest Ho]; subst.
    assert (Hfirst : firstOptionIs ApplicationCommandOptionUser i)
      by (eapply firstOptionIs_intro; eauto).
    by_path (addMember_paths i); expose; try contradiction;
      try destruct (hasRole ServicesRoleId (Roles member));
      try (destruct rerr); try (destruct rerr1); try (destruct rerr2);
      reflexivity.
Qed.

Lemma registered_invocation_accepted_witness :
  existsb isOptionRefusal
    (responses
       (emitted (onInteractionCreate plainTables
                   (makeChannelCall [stringOption "ab"])) allGood []))
  = false
  /\ existsb isOptionRefusal
       (responses
          (emitted (onInteractionCreate plainTables (addMemberCall "555"))
                   allGood []))
     = false.
Proof.
  split.
  - eapply (registered_invocation_accepted plainTables _
              (makeChannelCall [stringOption "ab"]) allGood []).
    + left; reflexivity.
    + split; [reflexivity|]. split; repeat constructor.
  - eapply (registered_invocation_accepted plainTables _
              (addMemberCall "555") allGood []).
    + right; left; reflexivity.
    + split; [reflexivity|]. split; repeat constructor.
Defined.

(* ===================================================================== *)
(** * The name of the channel make-channel asks for *)
(* ===================================================================== *)

Section AsciiNames.

(** What [ToLower] and then [ReplaceAll] of a space do to one byte. *)
Let clean (c : ascii) : ascii :=
  let l := strings.lowerASCIIbyte c in
  if Ascii.eqb " " l then "-"%char else l.

Fixpoint mapBytes (f : ascii -> ascii) (s : string) : string :=
  match s with
  | EmptyString => EmptyString
  | String c s' => String (f c) (mapBytes f s')
  end.

Lemma replace_space_map (s : string) :
  strings.ReplaceAll s " " "-"
  = mapBytes (fun c => if Ascii.eqb " " c then "-"%char else c) s.
Proof.
  unfold strings.ReplaceAll.
  induction s as [|c s IH]; [reflexivity|].
  cbn [strings.replaceFrom String.prefix mapBytes].
  destruct (Ascii.ascii_dec " " c) as [<-|Hne].
  - assert (Hp : String.prefix "" s = true) by (destruct s; reflexivity).
    rewrite Hp. cbn [String.length Nat.sub]. rewrite IH. reflexivity.
  - rewrite IH. apply Ascii.eqb_neq in Hne. now rewrite Hne.
Qed.

Lemma lower_replace_map (s : string) :
  strings.ReplaceAll (strings.lowerASCII s) " " "-" = mapBytes clean s.
Proof.
  rewrite replace_space_map.
  induction s as [|c s IH]; [reflexivity|].
  cbn [strings.lowerASCII mapBytes]. now rewrite IH.
Qed.

Lemma isASCIIbyte_lower (c : ascii) :
  strings.isASCIIbyte c = true ->
  strings.isASCIIbyte (strings.lowerASCIIbyte c) = true.
Proof.
  destruct c as [b0 b1 b2 b3 b4 b5 b6 b7].
  destruct b0, b1, b2, b3, b4, b5, b6, b7; vm_compute; congruence.
Qed.

(** Byte by byte: a cleaned byte is no space and no upper-case letter, it is
    ASCII if the byte was, and cleaning it again changes nothing; a byte
    that is no white space stays none. *)
Lemma clean_facts (c : ascii) :
  clean c <> " "%char
  /\ isUpperASCII (clean c) = false
  /\ clean (clean c) = clean c
  /\ (strings.isASCIIbyte c = true -> strings.isASCIIbyte (clean c) = true)
  /\ (strings.asciiSpace c = false -> strings.asciiSpace (clean c) = false).
Proof.
  destruct c as [b0 b1 b2 b3 b4 b5 b6 b7].
  destruct b0, b1, b2, b3, b4, b5, b6, b7; vm_compute;
    repeat split; congruence.
Qed.

Lemma isASCII_trimLeft (s : string) :
  strings.isASCII s = true -> strings.isASCII (strings.trimLeftASCII s) = true.
Proof.
  induction s as [|c s IH]; [reflexivity|].
  cbn [strings.isASCII strings.trimLeftASCII]. intros H.
  apply andb_true_iff in H as [Hc Hs].
  destruct (strings.asciiSpace c); [auto|].
  cbn [strings.isASCII]. now rewrite Hc, Hs.
Qed.

Lemma isASCII_trimRight (s : string) :
  strings.isASCII s = true -> strings.isASCII (strings.trimRightASCII s) = true.
Proof.
  induction s as [|c s IH]; [reflexivity|].
  cbn [strings.isASCII strings.trimRightASCII]. intros H.
  apply andb_true_iff in H as [Hc Hs]. specialize (IH Hs).
  destruct (strings.trimRightASCII s) as [|c' t].
  - destruct (strings.asciiSpace c); [reflexivity|].
    cbn [strings.isASCII]. now rewrite Hc.
  - cbn [strings.isASCII] in *. now rewrite Hc, IH.
Qed.

Lemma isASCII_lower (s : string) :
  strings.isASCII s = true -> strings.isASCII (strings.lowerASCII s) = true.
Proof.
  induction s as [|c s IH]; [reflexivity|].
  cbn [strings.isASCII strings.lowerASCII]. intros H.
  apply andb_true_iff in H as [Hc Hs].
  now rewrite (isASCIIbyte_lower c Hc), (IH Hs).
Qed.

Lemma isASCII_mapBytes_clean (s : string) :
  strings.isASCII s = true -> strings.isASCII (mapBytes clean s) = true.
Proof.
  induction s as [|c s IH]; [reflexivity|].
  cbn [strings.isASCII mapBytes]. intros H.
  apply andb_true_iff in H as [Hc Hs].
  destruct (clean_facts c) as (_ & _ & _ & Ha & _).
  now rewrite (Ha Hc), (IH Hs).
Qed.

(** On an ASCII name the normalization is the cleaning of the trimmed name,
    whatever the Unicode tables are. *)
Lemma normalize_ascii (u : strings.Unicode) (name : string) :
  strings.isASCII name = true ->
  normalize u name
  = mapBytes clean (strings.trimRightASCII (strings.trimLeftASCII name)).
Proof.
  intros Ha. unfold normalize, strings.TrimSpace, strings.ToLower.
  rewrite Ha, (isASCII_trimRight _ (isASCII_trimLeft _ Ha)).
  apply lower_replace_map.
Qed.

(** A trimmed string is trimmed already. *)
Definition trimmed (s : string) : Prop :=
  strings.trimRightASCII (strings.trimLeftASCII s) = s.

Lemma trimLeft_idem (s : string) :
  strings.trimLeftASCII (strings.trimLeftASCII s) = strings.trimLeftASCII s.
Proof.
  induction s as [|c s IH]; [reflexivity|].
  cbn [strings.trimLeftASCII].
  destruct (strings.asciiSpace c) eqn:Hc; [exact IH|].
  cbn [strings.trimLeftASCII]. now rewrite Hc.
Qed.

Lemma trimRight_idem (s : string) :
  strings.trimRightASCII (strings.trimRightASCII s) = strings.trimRightASCII s.
Proof.
  induction s as [|c s IH]; [reflexivity|].
  cbn [strings.trimRightASCII].
  destruct (strings.trimRightASCII s) as [|c' t] eqn:Ht.
  - destruct (strings.asciiSpace c) eqn:Hc; [reflexivity|].
    cbn [strings.trimRightASCII]. now rewrite Hc.
  - cbn [strings.trimRightASCII] in *. now rewrite IH.
Qed.

(** Trimming on the right keeps a string whose first byte is no white
    space starting with that byte. *)
Lemma trimLeft_trimRight (s : string) :
  strings.trimLeftASCII s = s ->
  strings.trimLeftASCII (strings.trimRightASCII s) = strings.trimRightASCII s.
Proof.
  destruct s as [|c s]; [reflexivity|].
  cbn [strings.trimLeftASCII strings.trimRightASCII].
  destruct (strings.asciiSpace c) eqn:Hc.
  - intros Heq. exfalso.
    assert (Hlen : forall t, (String.length (strings.trimLeftASCII t)
                              <= String.length t)%nat).
    { induction t as [|c' t IHt]; [reflexivity|].
      cbn [strings.trimLeftASCII]. destruct (strings.asciiSpace c');
        cbn [String.length]; lia. }
    specialize (Hlen s). rewrite Heq in Hlen. cbn [String.length] in Hlen. lia.
  - intros _. destruct (strings.trimRightASCII s);
      cbn [strings.trimLeftASCII]; now rewrite Hc.
Qed.

Lemma trimmed_trim (s : string) :
  trimmed (strings.trimRightASCII (strings.trimLeftASCII s)).
Proof.
  unfold trimmed.
  rewrite (trimLeft_trimRight _ (trimLeft_idem s)). apply trimRight_idem.
Qed.

Lemma trimLeft_mapBytes_clean (s : string) :
  strings.trimLeftASCII s = s ->
  strings.trimLeftASCII (mapBytes clean s) = mapBytes clean s.
Proof.
  destruct s as [|c s]; [reflexivity|].
  cbn [strings.trimLeftASCII mapBytes].
  destruct (strings.asciiSpace c) eqn:Hc.
  - intros Heq. exfalso.
    assert (Hlen : forall t, (String.length (strings.trimLeftASCII t)
                              <= String.length t)%nat).
    { induction t as [|c' t IHt]; [reflexivity|].
      cbn [strings.trimLeftASCII]. destruct (strings.asciiSpace c');
        cbn [String.length]; lia. }
    specialize (Hlen s). rewrite Heq in Hlen. cbn [String.length] in Hlen. lia.
  - intros _. destruct (clean_facts c) as (_ & _ & _ & _ & Hs).
    now rewrite (Hs Hc).
Qed.

Lemma trimRight_mapBytes_clean (s : string) :
  strings.trimRightASCII s = s ->
  strings.trimRightASCII (mapBytes clean s) = mapBytes clean s.
Proof.
  induction s as [|c s IH]; [reflexivity|].
  cbn [strings.trimRightASCII mapBytes].
  destruct (strings.trimRightASCII s) as [|c' t] eqn:Ht.
  - destruct (strings.asciiSpace c) eqn:Hc; [discriminate|].
    intros Heq. injection Heq as <-.
    cbn [mapBytes strings.trimRightASCII].
    destruct (clean_facts c) as (_ & _ & _ & _ & Hs). now rewrite (Hs Hc).
  - intros Heq. injection Heq as <-.
    rewrite (IH eq_refl). reflexivity.
Qed.

Lemma mapBytes_clean_idem (s : string) :
  mapBytes clean (mapBytes clean s) = mapBytes clean s.
Proof.
  induction s as [|c s IH]; [reflexivity|].
  cbn [mapBytes]. destruct (clean_facts c) as (_ & _ & Hi & _).
  now rewrite Hi, IH.
Qed.

Lemma mapBytes_clean_bytes (s : string) :
  Forall (fun c => c <> " "%char /\ isUpperASCII c = false)
         (bytes (mapBytes clean s)).
Proof.
  induction s as [|c s IH]; [constructor|].
  cbn [mapBytes bytes]. constructor; [|exact IH].
  destruct (clean_facts c) as (Hs & Hu & _). split; assumption.
Qed.

Lemma length_mapBytes (f : ascii -> ascii) (s : string) :
  String.length (mapBytes f s) = String.length s.
Proof. induction s as [|c s IH]; [reflexivity|]. cbn. now rewrite IH. Qed.

Lemma length_trimLeft (s : string) :
  (String.length (strings.trimLeftASCII s) <= String.length s)%nat.
Proof.
  induction s as [|c s IH]; [reflexivity|].
  cbn [strings.trimLeftASCII]. destruct (strings.asciiSpace c);
    cbn [String.length]; lia.
Qed.

Lemma length_trimRight (s : string) :
  (String.length (strings.trimRightASCII s) <= String.length s)%nat.
Proof.
  induction s as [|c s IH]; [reflexivity|].
  cbn [strings.trimRightASCII].
  destruct (strings.trimRightASCII s) as [|c' t].
  - destruct (strings.asciiSpace c); cbn [String.length]; lia.
  - cbn [String.length] in *. lia.
Qed.

(** The normalization of an ASCII name: still ASCII, without a space or an
    upper-case letter, without white space at its ends, not longer than the
    name, and a fixed point of the normalization. *)
Lemma normalize_ascii_facts (u : strings.Unicode) (name : string) :
  strings.isASCII name = true ->
  strings.isASCII (normalize u name) = true
  /\ Forall (fun c => c <> " "%char /\ isUpperASCII c = false)
            (bytes (normalize u name))
  /\ strings.TrimSpace u (normalize u name) = normalize u name
  /\ normalize u (normalize u name) = normalize u name
  /\ (len (normalize u name) <= len name)%Z.
Proof.
  intros Ha. rewrite (normalize_ascii u name Ha).
  set (t := strings.trimRightASCII (strings.trimLeftASCII name)).
  assert (Hat : strings.isASCII t = true)
    by (apply isASCII_trimRight, isASCII_trimLeft, Ha).
  assert (Hac : strings.isASCII (mapBytes clean t) = true)
    by (apply isASCII_mapBytes_clean, Hat).
  assert (Htt : trimmed t) by apply trimmed_trim.
  assert (Hl : strings.trimLeftASCII t = t).
  { unfold t. rewrite (trimLeft_trimRight _ (trimLeft_idem name)).
    reflexivity. }
  assert (Hr : strings.trimRightASCII t = t) by apply trimRight_idem.
  assert (Htrim : strings.trimRightASCII
                    (strings.trimLeftASCII (mapBytes clean t))
                  = mapBytes clean t).
  { rewrite (trimLeft_mapBytes_clean t Hl).
    apply (trimRight_mapBytes_clean t Hr). }
  split; [exact Hac|].
  split; [apply mapBytes_clean_bytes|].
  split; [unfold strings.TrimSpace; now rewrite Hac|].
  split.
  - rewrite (normalize_ascii u _ Hac), Htrim. apply mapBytes_clean_idem.
  - unfold len. rewrite length_mapBytes. unfold t.
    pose proof (length_trimRight (strings.trimLeftASCII name)).
    pose proof (length_trimLeft name). lia.
Qed.

(** A name made of white space only normalizes to the empty string. *)
Lemma trimLeft_blank (s : string) :
  forallb strings.asciiSpace (bytes s) = true -> strings.trimLeftASCII s = "".
Proof.
  induction s as [|c s IH]; [reflexivity|].
  cbn [bytes forallb strings.trimLeftASCII]. intros H.
  apply andb_true_iff in H as [Hc Hs]. rewrite Hc. exact (IH Hs).
Qed.

Lemma isASCII_blank (s : string) :
  forallb strings.asciiSpace (bytes s) = true -> strings.isASCII s = true.
Proof.
  induction s as [|c s IH]; [reflexivity|].
  cbn [bytes forallb strings.isASCII]. intros H.
  apply andb_true_iff in H as [Hc Hs]. rewrite (IH Hs), andb_true_r.
  destruct c as [b0 b1 b2 b3 b4 b5 b6 b7].
  destruct b0, b1, b2, b3, b4, b5, b6, b7; vm_compute in Hc |- *;
    congruence.
Qed.

Lemma normalize_blank (u : strings.Unicode) (name : string) :
  forallb strings.asciiSpace (bytes name) = true -> normalize u name = "".
Proof.
  intros Hb. rewrite (normalize_ascii u name (isASCII_blank name Hb)).
  now rewrite (trimLeft_blank name Hb).
Qed.

End AsciiNames.

(** Whenever [makeChannel] asks for a channel, it is a text channel of the
    configured guild, named by the normalization of the first option, and
    the name has from 2 to 100 bytes.  When the option is ASCII the name has
    no space, no upper-case letter and no white space at its ends, is not
    longer than the option, and normalizing it again would not change it. *)
Theorem makeChannel_requested_name (u : strings.Unicode)
    (i : InteractionCreate) (d : Discord) (h : list Event)
    (g n : string) (t : ChannelType) (r : result Channel) :
  In (EGuildChannelCreate g n t r) (emitted (makeChannel u i) d h) ->
  g = JuiceworksGuildId /\ t = ChannelTypeGuildText
  /\ (2 <= len n <= 100)%Z
  /\ exists o rest,
       Options (ApplicationCommandData i) = o :: rest
       /\ Option_Type o = ApplicationCommandOptionString
       /\ n = normalize u (Option_Value o)
       /\ (strings.isASCII (Option_Value o) = true ->
           Forall (fun c => c <> " "%char /\ isUpperASCII c = false) (bytes n)
           /\ strings.TrimSpace u n = n
           /\ normalize u n = n
           /\ (len n <= len (Option_Value o))%Z).
Proof.
  by_path (makeChannel_paths u i); expose; destruct rerr; intros Hin;
    in_cases Hin.
  all: split; [reflexivity|]; split; [reflexivity|].
  all: split; [assumption|].
  all: exists o, rest; repeat (split; [assumption || reflexivity|]).
  all: intros Ha;
    destruct (normalize_ascii_facts u (Option_Value o) Ha)
      as (_ & Hb & Ht & Hn & Hl); repeat split; assumption.
Qed.

Lemma makeChannel_requested_name_witness :
  Forall (fun c => c <> " "%char /\ isUpperASCII c = false) (bytes "my-project")
  /\ normalize plainTables "my-project" = "my-project".
Proof.
  destruct (makeChannel_requested_name plainTables
              (makeChannelCall [stringOption "  My Project  "]) allGood []
              JuiceworksGuildId "my-project" ChannelTypeGuildText
              (Ok projectChannel))
    as (_ & _ & _ & o & rest & Ho & _ & _ & H).
  - left; reflexivity.
  - injection Ho as <- _. destruct (H eq_refl) as (Hb & _ & Hn & _).
    split; assumption.
Defined.

(** A name that is empty or made of white space only is refused: the only
    events of [makeChannel] are then the reply about the length, and no
    channel is asked for. *)
Theorem makeChannel_blank_name (u : strings.Unicode) (i : InteractionCreate)
    (d : Discord) (h : list Event)
    (o : ApplicationCommandInteractionDataOption)
    (rest : list ApplicationCommandInteractionDataOption) :
  authorized i ->
  Options (ApplicationCommandData i) = o :: rest ->
  Option_Type o = ApplicationCommandOptionString ->
  forallb strings.asciiSpace (bytes (Option_Value o)) = true ->
  exists rerr,
    emitted (makeChannel u i) d h
    = reply i "Channel name must be between 2 and 100 characters." rerr.
Proof.
  intros Hauth Ho Ht Hblank.
  by_path (makeChannel_paths u i); authorized_only Hauth.
  - exfalso. eapply H0, firstOptionIs_intro; eauto.
  - eauto.
  - exfalso. rewrite Ho in H0. injection H0 as <- <-.
    rewrite (normalize_blank u _ Hblank) in H2.
    unfold validLength, len in H2. cbn in H2. lia.
  - exfalso. rewrite Ho in H0. injection H0 as <- <-.
    rewrite (normalize_blank u _ Hblank) in H2.
    unfold validLength, len in H2. cbn in H2. lia.
  - exfalso. rewrite Ho in H0. injection H0 as <- <-.
    rewrite (normalize_blank u _ Hblank) in H2.
    unfold validLength, len in H2. cbn in H2. lia.
  - exfalso. rewrite Ho in H0. injection H0 as <- <-.
    rewrite (normalize_blank u _ Hblank) in H2.
    unfold validLength, len in H2. cbn in H2. lia.
Qed.

Lemma makeChannel_blank_name_witness :
  (exists rerr,
     emitted (makeChannel plainTables (makeChannelCall [stringOption ""]))
             allGood []
     = reply (makeChannelCall [stringOption ""])
             "Channel name must be between 2 and 100 characters." rerr)
  /\ (exists rerr,
        emitted (makeChannel plainTables
                   (makeChannelCall
                      [stringOption (String "009" (String "010" "   "))]))
                allGood []
        = reply (makeChannelCall
                   [stringOption (String "009" (String "010" "   "))])
                "Channel name must be between 2 and 100 characters." rerr).
Proof.
  split.
  - apply (makeChannel_blank_name plainTables
             (makeChannelCall [stringOption ""]) allGood []
             (stringOption "") [] (juiceworksCaller_authorized _ _ _)
             eq_refl eq_refl eq_refl).
  - apply (makeChannel_blank_name plainTables
             (makeChannelCall [stringOption (String "009" (String "010" "   "))])
             allGood []
             (stringOption (String "009" (String "010" "   "))) []
             (juiceworksCaller_authorized _ _ _) eq_refl eq_refl eq_refl).
Defined.

(* ===================================================================== *)
(** * The process *)
(* ===================================================================== *)

(** Unfold [main] down to the host's answers. *)
Ltac unfold_main :=
  cbv beta iota zeta delta
    [main registerFrom deleteRegistered defer pbind pret pcall emit
     Getenv Stat godotenv_Load New Open Close ApplicationCommandCreate
     ApplicationCommandDelete Receive StateUserID logPrintf logPrintln
     logFatalf logFatalln logPanicf nilDereference commands].

Ltac run_main :=
  unfold_main; cbn [List.length replicate];
  repeat (branch; cbv beta iota zeta; cbn [insert list_insert]).

(** Turn the tests on the token into the propositions they decide. *)
Ltac token_tests :=
  repeat match goal with
    | T : negb (String.eqb _ "") = true |- _ =>
        apply negb_true_iff, String.eqb_neq in T
    | T : negb (String.eqb _ "") = false |- _ =>
        apply negb_false_iff, String.eqb_eq in T; try rewrite T in *
    | T : String.eqb _ "" = true |- _ =>
        apply String.eqb_eq in T; try rewrite T in *
    | T : String.eqb _ "" = false |- _ => apply String.eqb_neq in T
    end.

(** Close a path of [main] once the phase that found the token is known. *)
Ltac close_path tok Htok :=
  first
    [ eapply (main_no_session _ tok); exact Htok
    | eapply (main_not_opened _ tok); exact Htok
    | eapply (main_first_unidentified _ tok); exact Htok
    | eapply (main_first_refused _ tok); [exact Htok | reflexivity]
    | eapply (main_second_unidentified _ tok); [exact Htok | reflexivity]
    | eapply (main_second_refused _ tok); [exact Htok | reflexivity]
    | eapply (main_waiting _ tok); [exact Htok | reflexivity]
    | eapply (main_first_unknown _ tok); [exact Htok | reflexivity]
    | eapply (main_first_kept _ tok); [exact Htok | reflexivity]
    | eapply (main_second_unknown _ tok); [exact Htok | reflexivity]
    | eapply (main_second_kept _ tok); [exact Htok | reflexivity]
    | eapply (main_clean _ tok); [exact Htok | reflexivity] ].

(** Every run of [main] follows one of its paths. *)
Lemma main_paths (host : Host) (h : list ProcessEvent) :
  mainPath (fst (main host h)) (snd (main host h)).
Proof.
  run_main; cbn [fst snd app]; token_tests.
  all: try (apply main_no_file).
  all: try (apply main_no_token).
  all: match goal with
       | Hne : ?t <> "" |- mainPath _ (PGetenv _ ?t :: _) =>
           close_path [PGetenv "DISCORD_TOKEN" t]
                      (token_from_environment t Hne)
       | Hne : ?t <> ""
         |- mainPath _ (PGetenv _ "" :: PStat _ None :: PGodotenvLoad _ ?l
                        :: PGetenv _ ?t :: _) =>
           close_path [PGetenv "DISCORD_TOKEN" ""; PStat ".env" None;
                       PGodotenvLoad ".env" l; PGetenv "DISCORD_TOKEN" t]
                      (token_from_file l t Hne)
       end.
Qed.

(** Case analysis on the path [main] took. *)
Ltac by_main_path host h :=
  cbv zeta;
  generalize (main_paths host h);
  destruct (main host h) as [out es]; cbn [fst snd];
  let Q := fresh "Q" in
  intros Q; destruct Q;
  try match goal with T : tokenPhase _ _ |- _ => destruct T end;
  try match goal with C : commands = [_; _] |- _ =>
        injection C as <- <-
      end;
  unfold configured, served, waiting; cbn [app].

(** Split a concrete trace before its last event, or its last two. *)
Ltac split_last :=
  match goal with
  | |- exists before, _ =>
      match goal with
      | |- context [?es = (_ ++ [_])%list] =>
          exists (removelast es); repeat eexists; reflexivity
      | |- context [?es = (_ ++ [_; _])%list] =>
          exists (removelast (removelast es)); repeat eexists; reflexivity
      end
  end.

(** In whatever way [main] ends, the calls it made came in the order of the
    life of the process: the token is looked for, the session is created,
    configured and given its handlers, then opened; the commands are
    registered; the process waits for its signal; the commands are deleted;
    the session is closed. *)
Theorem main_lifecycle (host : Host) (h : list ProcessEvent) :
  ascending (stages (snd (main host h))) = true.
Proof. by_main_path host h; reflexivity. Qed.

(** When the variable [DISCORD_TOKEN] is set and not empty, the file [.env]
    is neither looked for nor loaded, and the session is created with that
    token, behind "Bot ". *)
Theorem main_token_from_environment (host : Host) (h : list ProcessEvent)
    (t : string) (rest : list ProcessEvent) :
  snd (main host h) = PGetenv "DISCORD_TOKEN" t :: rest ->
  t <> "" ->
  List.filter isStat (snd (main host h)) = []
  /\ List.filter isLoad (snd (main host h)) = []
  /\ exists nerr rest', rest = PNew ("Bot " +:+ t) nerr :: rest'.
Proof.
  by_main_path host h; intros Heq Hne; injection Heq as <- <-;
    try contradiction; cbn; eauto.
Qed.

Lemma main_token_from_environment_witness :
  List.filter isLoad (snd (main healthyHost [])) = []
  /\ exists nerr rest',
       tl (snd (main healthyHost [])) = PNew "Bot secret" nerr :: rest'.
Proof.
  destruct (main_token_from_environment healthyHost [] "secret"
              (tl (snd (main healthyHost []))) eq_refl)
    as (_ & Hload & Hnew).
  - intros Heq. discriminate Heq.
  - split; [exact Hload | exact Hnew].
Defined.

(** A session is only ever created with a token that is not empty, that was
    read from the variable [DISCORD_TOKEN] by the last look at it, and with
    "Bot " before it; and [main] creates at most one session. *)
Theorem main_session_token (host : Host) (h : list ProcessEvent)
    (token : string) (nerr : option error) :
  In (PNew token nerr) (snd (main host h)) ->
  (exists t before after,
      token = "Bot " +:+ t /\ t <> ""
      /\ snd (main host h)
         = (before ++ PGetenv "DISCORD_TOKEN" t :: PNew token nerr :: after)%list)
  /\ List.length (List.filter isNew (snd (main host h))) = 1%nat.
Proof.
  by_main_path host h; intros Hin; in_cases Hin.
  all: split; [|reflexivity].
  all: exists t.
  all: first [ exists []; eexists; split; [reflexivity|];
               split; [assumption | reflexivity]
             | exists [PGetenv "DISCORD_TOKEN" ""; PStat ".env" None;
                       PGodotenvLoad ".env" lerr]; eexists;
               split; [reflexivity|]; split; [assumption | reflexivity] ].
Qed.

Lemma main_session_token_witness :
  List.length (List.filter isNew (snd (main healthyHost []))) = 1%nat.
Proof.
  apply (main_session_token healthyHost [] "Bot secret" None).
  right; left; reflexivity.
Defined.

(** A start-up that fails is fatal and leaves nothing behind.  When the file
    [.env] is missing, the session cannot be created or the connection
    cannot be opened, [main] exits the process with status 1; and whenever
    [main] exits the process it has status 1, its last act was a log line,
    no command was registered, and no session was left to close. *)
Theorem main_fatal_startup (host : Host) (h : list ProcessEvent) :
  let out := fst (main host h) in
  let es := snd (main host h) in
  (existsb isStartupFailure es = true -> out = Exited 1)
  /\ (forall code, out = Exited code ->
      code = 1%Z
      /\ List.filter isCreate es = []
      /\ List.filter isClose es = []
      /\ existsb isOpened es = false
      /\ exists before f args, es = (before ++ [PLog f args])%list).
Proof.
  by_main_path host h.
  all: split; [intros Hf; try reflexivity; cbn in Hf; discriminate Hf|].
  all: intros code Hout; try discriminate Hout; injection Hout as <-.
  all: do 4 (split; [reflexivity|]).
  all: split_last.
Qed.

Lemma main_fatal_startup_witness :
  fst (main (hostOf "" "" (Some "stat .env: no such file or directory")
                    registeredAs (fun _ => None) (Some SIGINT)) [])
  = Exited 1
  /\ List.filter isCreate
       (snd (main (hostOf "" "" None registeredAs (fun _ => None)
                          (Some SIGINT)) []))
     = [].
Proof.
  split.
  - apply (main_fatal_startup
             (hostOf "" "" (Some "stat .env: no such file or directory")
                     registeredAs (fun _ => None) (Some SIGINT)) []).
    reflexivity.
  - eapply (main_fatal_startup
              (hostOf "" "" None registeredAs (fun _ => None)
                      (Some SIGINT)) []).
    reflexivity.
Defined.

(** When the platform refuses a registration, [main] panics with the name of
    the refused command and closes the session on its way out, but deletes
    nothing: a command registered before the refused one stays registered. *)
Theorem main_registration_refused (host : Host) (h : list ProcessEvent)
    (me g : string) (cmd : ApplicationCommand) (e : error) :
  In (PApplicationCommandCreate me g cmd (Err e)) (snd (main host h)) ->
  fst (main host h)
  = Panicked "Cannot create '%v' command: %v"
             [ArgString (Command_Name cmd); ArgError e]
  /\ deletionsAsked (snd (main host h)) = []
  /\ List.filter isReceive (snd (main host h)) = []
  /\ exists before cerr,
       snd (main host h)
       = (before ++ [PLog "Cannot create '%v' command: %v"
                          [ArgString (Command_Name cmd); ArgError e];
                     PClose cerr])%list
       /\ List.filter isClose before = [].
Proof.
  by_main_path host h; intros Hin; in_cases Hin.
  all: do 3 (split; [reflexivity|]).
  all: split_last.
Qed.

(** The second registration is refused: the first command stays. *)
Lemma main_registration_refused_witness :
  registeredIDs
    (snd (main (hostOf "secret" "" None
                  (fun n c => if Nat.eqb n 0 then registeredAs n c
                              else Err "Missing Access")
                  (fun _ => None) (Some SIGINT)) []))
  = ["cmd-1"]
  /\ deletionsAsked
       (snd (main (hostOf "secret" "" None
                     (fun n c => if Nat.eqb n 0 then registeredAs n c
                                 else Err "Missing Access")
                     (fun _ => None) (Some SIGINT)) []))
     = [].
Proof.
  split; [reflexivity|].
  eapply (main_registration_refused
            (hostOf "secret" "" None
               (fun n c => if Nat.eqb n 0 then registeredAs n c
                           else Err "Missing Access")
               (fun _ => None) (Some SIGINT))
            [] "777" JuiceworksGuildId _ "Missing Access").
  do 9 right. left. reflexivity.
Defined.

(** [main] deletes only commands it registered, in the order it registered
    them, and only after its signal came: the deletions asked for are the
    first of the registered identifiers, and stop at the first deletion that
    fails.  When [main] returns, every registered command was deleted, both
    of them, and the session was closed last. *)
Theorem main_cleanup (host : Host) (h : list ProcessEvent) :
  let out := fst (main host h) in
  let es := snd (main host h) in
  deletionsAsked es `prefix_of` registeredIDs es
  /\ (deletionsAsked es <> [] -> existsb isReceive es = true)
  /\ (exists failed, deletionsAsked es = (deletedIDs es ++ failed)%list
                     /\ (List.length failed <= 1)%nat)
  /\ (out = Returned tt ->
      deletedIDs es = registeredIDs es
      /\ List.length (registeredIDs es) = List.length commands
      /\ exists before cerr, es = (before ++ [PClose cerr])%list).
Proof.
  by_main_path host h.
  all: split;
    [ first [ exists []; reflexivity
            | eexists [_]; reflexivity
            | eexists [_; _]; reflexivity ] |].
  all: split; [intros Hne; try reflexivity; exfalso; apply Hne; reflexivity|].
  all: split;
    [ first [ exists []; split; [reflexivity | cbn; lia]
            | eexists [_]; split; [reflexivity | cbn; lia] ] |].
  all: intros Hout; try discriminate Hout.
  all: do 2 (split; [reflexivity|]).
  all: split_last.
Qed.

(** The session is closed at most once, only after it was opened, and as
    the last thing [main] does.  A panic only happens with the session open,
    and once the session is open [main] does not end without closing it:
    only a [main] that still waits for its signal has it open. *)
Theorem main_close (host : Host) (h : list ProcessEvent) :
  let out := fst (main host h) in
  let es := snd (main host h) in
  (List.length (List.filter isClose es) <= 1)%nat
  /\ (forall cerr, In (PClose cerr) es ->
      existsb isOpened es = true
      /\ exists before, es = (before ++ [PClose cerr])%list)
  /\ (forall f args, out = Panicked f args -> existsb isOpened es = true)
  /\ (existsb isOpened es = true ->
      out = Blocked \/ exists before cerr, es = (before ++ [PClose cerr])%list).
Proof.
  by_main_path host h.
  all: split; [cbn; lia|].
  all: split; [intros cerr' Hin; in_cases Hin;
               (split; [reflexivity | split_last])|].
  all: split; [intros f args Hout; try discriminate Hout; reflexivity|].
  all: intros Hop; try (cbn in Hop; discriminate Hop).
  all: first [left; reflexivity | right; split_last].
Qed.

(** [main] waits for a signal only once both commands are registered, and
    after asking to be notified of SIGINT and SIGTERM.  It is left waiting
    exactly when its last event is that request; nothing is then deleted and
    the session stays open.  A signal that comes is followed at once by the
    line "Shutting down...". *)
Theorem main_waits (host : Host) (h : list ProcessEvent) :
  let out := fst (main host h) in
  let es := snd (main host h) in
  (out = Blocked
   <-> exists before,
         es = (before ++ [PSignalNotify [SIGINT; SIGTERM; Interrupt]])%list)
  /\ (In (PSignalNotify [SIGINT; SIGTERM; Interrupt]) es ->
      List.length (registeredIDs es) = List.length commands)
  /\ (out = Blocked ->
      deletionsAsked es = [] /\ List.filter isClose es = []
      /\ List.filter isReceive es = [])
  /\ (forall sig, In (PReceive sig) es ->
      exists before after,
        es = (before ++ PSignalNotify [SIGINT; SIGTERM; Interrupt]
                     :: PReceive sig :: PLog "Shutting down..." [] :: after)%list).
Proof.
  by_main_path host h.
  all: split;
    [ split;
      [ intros Hout; try discriminate Hout; split_last
      | intros [before Hes]; try reflexivity; exfalso;
        apply (f_equal (@rev ProcessEvent)) in Hes;
        rewrite rev_app_distr in Hes; cbn in Hes; discriminate Hes ] |].
  all: split; [intros Hin; try reflexivity; in_cases Hin|].
  all: split;
    [ intros Hout; try discriminate Hout; repeat split; reflexivity |].
  all: intros sig' Hin; in_cases Hin.
  all: match goal with
       | |- exists before after, ?es = _ =>
           first
             [ exists (firstn 11 es); eexists; reflexivity
             | exists (firstn 14 es); eexists; reflexivity ]
       end.
Qed.

(* ===================================================================== *)
(** * The registration and clean-up loops, for any table of commands *)
(* ===================================================================== *)

Local Open Scope list_scope.

Lemma run_registerFrom_cons (i : nat) (v : ApplicationCommand)
    (rest : list ApplicationCommand)
    (slots : list (option ApplicationCommand)) (host : Host)
    (h : list ProcessEvent) :
  registerFrom i (v :: rest) slots host h
  = match onStateUser host h with
    | None => (Panicked nilPointerDereference [], [])
    | Some u =>
        let me := User_ID u in
        let r :=
          onApplicationCommandCreate host (h ++ []) me JuiceworksGuildId v in
        let ev := PApplicationCommandCreate me JuiceworksGuildId v r in
        match r with
        | Ok cmd =>
            let (o, es) :=
              registerFrom (S i) rest (<[i := Some cmd]> slots) host
                ((h ++ []) ++ [ev]) in
            (o, ([] ++ [ev] ++ es)%list)
        | Err e =>
            (Panicked "Cannot create '%v' command: %v"
                      [ArgString (Command_Name v); ArgError e],
             ([] ++ [ev]
                 ++ [PLog "Cannot create '%v' command: %v"
                          [ArgString (Command_Name v); ArgError e]])%list)
        end
    end.
Proof.
  cbn [registerFrom].
  unfold pbind, StateUserID, nilDereference, ApplicationCommandCreate, pcall,
    logPanicf.
  cbv zeta.
  destruct (onStateUser host h) as [u|]; [|reflexivity].
  destruct (onApplicationCommandCreate host (h ++ []) _ _ v) as [cmd|e];
    [|reflexivity].
  destruct (registerFrom (S i) rest _ host _) as [[a|code|f args|] es];
    reflexivity.
Qed.

(** The registration loop over any commands [cmds], started at index [i]
    with enough slots: it neither exits the process nor blocks; when it
    returns, the slot [i + j] holds what the platform registered for the
    [j]-th command, for every [j], and the other slots are as they were;
    when it panics, either the session did not know its user, and what it
    did before were registrations that succeeded, fewer than the commands,
    or its last events are the refused registration and the log line naming
    the refused command. *)
Theorem registerFrom_fills (cmds : list ApplicationCommand) :
  forall (i : nat) (slots : list (option ApplicationCommand)) (host : Host)
         (h : list ProcessEvent),
    (i + List.length cmds <= List.length slots)%nat ->
    match registerFrom i cmds slots host h with
    | (Returned slots', es) =>
        List.length slots' = List.length slots
        /\ (forall j, (j < i \/ i + List.length cmds <= j)%nat ->
                      slots' !! j = slots !! j)
        /\ (forall j v, cmds !! j = Some v ->
              exists me c,
                slots' !! (i + j)%nat = Some (Some c)
                /\ In (PApplicationCommandCreate me JuiceworksGuildId v (Ok c))
                      es)
        /\ List.length (registeredIDs es) = List.length cmds
    | (Panicked f args, es) =>
        (f = nilPointerDereference /\ args = []
         /\ List.length (registeredIDs es) = List.length es
         /\ (List.length es < List.length cmds)%nat)
        \/ (exists before me v e,
              In v cmds
              /\ f = "Cannot create '%v' command: %v"
              /\ args = [ArgString (Command_Name v); ArgError e]
              /\ es = (before
                       ++ [PApplicationCommandCreate me JuiceworksGuildId v
                             (Err e);
                           PLog f args])%list)
    | (Exited _, _) => False
    | (Blocked, _) => False
    end.
Proof.
  induction cmds as [|v rest IH]; intros i slots host h Hlen.
  - cbn. split; [reflexivity|]. split; [reflexivity|].
    split; [|reflexivity].
    intros k w Hw. rewrite lookup_nil in Hw. discriminate Hw.
  - rewrite run_registerFrom_cons.
    destruct (onStateUser host h) as [u|];
      [|left; repeat split; cbn; lia].
    cbv zeta. cbn [List.length] in Hlen.
    destruct (onApplicationCommandCreate host (h ++ []) _ _ v) as [cmd|e].
    + specialize (IH (S i) (<[i := Some cmd]> slots) host
                     ((h ++ [])
                      ++ [PApplicationCommandCreate
                            (User_ID u) JuiceworksGuildId v (Ok cmd)])).
      rewrite length_insert in IH.
      specialize (IH ltac:(lia)).
      destruct (registerFrom (S i) rest _ host _) as [[slots'|code|f args|] es].
      * destruct IH as (Hl & Hout & Hin & Hn).
        split; [exact Hl|]. split; [|split].
        -- intros j Hj. cbn [List.length] in Hj. rewrite Hout by lia.
           apply list_lookup_insert_ne. lia.
        -- intros k w Hw. destruct k as [|j].
           ++ cbn in Hw. injection Hw as <-.
              exists (User_ID u), cmd. split.
              ** rewrite Nat.add_0_r, Hout by lia.
                 apply list_lookup_insert_eq. lia.
              ** left. reflexivity.
           ++ cbn in Hw. destruct (Hin j w Hw) as (me & c & Hs & Hc).
              exists me, c. split.
              ** rewrite <- Hs. f_equal. lia.
              ** right. exact Hc.
        -- cbn [app registeredIDs flat_map List.length] in *.
           unfold registeredIDs in Hn. rewrite Hn. reflexivity.
      * exact IH.
      * destruct IH as [(Hf & Ha & Hn & Hlt)
                       | (before & me & w & e & Hw & Hf & Ha & Hes)].
        -- left. split; [exact Hf|]. split; [exact Ha|].
           cbn [app registeredIDs flat_map List.length] in *.
           unfold registeredIDs in Hn. rewrite Hn. split; [reflexivity | lia].
        -- right.
           exists (PApplicationCommandCreate (User_ID u)
                     JuiceworksGuildId v (Ok cmd) :: before), me, w, e.
           split; [right; exact Hw|]. split; [exact Hf|]. split; [exact Ha|].
           rewrite Hes. reflexivity.
      * exact IH.
    + right. exists [], (User_ID u), v, e.
      split; [left; reflexivity|]. repeat split.
Qed.

(** The loop of [main]: two commands, two empty slots, both filled. *)
Lemma registerFrom_fills_witness :
  (0 + List.length commands
   <= List.length (replicate (List.length commands)
                             (@None ApplicationCommand)))%nat
  /\ List.length
       (registeredIDs
          (snd (registerFrom 0 commands
                  (replicate (List.length commands) None) healthyHost [])))
     = 2%nat.
Proof.
  assert (Hlen : (0 + List.length commands
                  <= List.length (replicate (List.length commands)
                                            (@None ApplicationCommand)))%nat)
    by (cbn; lia).
  split; [exact Hlen|].
  pose proof (registerFrom_fills commands 0
                (replicate (List.length commands) None) healthyHost [] Hlen)
    as Hfill.
  destruct (registerFrom 0 commands _ healthyHost [])
    as [[slots'|code|f args|] es] eqn:Hrun;
    vm_compute in Hrun; try discriminate Hrun.
  destruct Hfill as (_ & _ & _ & Hn). exact Hn.
Defined.

Lemma run_deleteRegistered_cons (c : ApplicationCommand)
    (rest : list (option ApplicationCommand)) (host : Host)
    (h : list ProcessEvent) :
  deleteRegistered (Some c :: rest) host h
  = match onStateUser host h with
    | None => (Panicked nilPointerDereference [], [])
    | Some u =>
        let me := User_ID u in
        let r := onApplicationCommandDelete host (h ++ []) me JuiceworksGuildId
                   (Command_ID c) in
        let ev :=
          PApplicationCommandDelete me JuiceworksGuildId (Command_ID c) r in
        match r with
        | None =>
            let (o, es) := deleteRegistered rest host ((h ++ []) ++ [ev]) in
            (o, [] ++ [ev] ++ es)
        | Some e =>
            (Panicked "Cannot delete '%v' command: %v"
                      [ArgString (Command_Name c); ArgError e],
             [] ++ [ev] ++ [PLog "Cannot delete '%v' command: %v"
                                 [ArgString (Command_Name c); ArgError e]])
        end
    end.
Proof.
  cbn [deleteRegistered].
  unfold pbind, StateUserID, nilDereference, ApplicationCommandDelete, pcall,
    logPanicf.
  cbv zeta.
  destruct (onStateUser host h) as [u|]; [|reflexivity].
  destruct (onApplicationCommandDelete host (h ++ []) _ _ _) as [e|];
    [reflexivity|].
  destruct (deleteRegistered rest host _) as [[a|code|f args|] es];
    reflexivity.
Qed.

(** The clean-up loop over slots that all hold a command never meets an
    empty slot, never exits the process and never blocks.  It asks for the
    deletion of the commands in the order of the slots; when it returns,
    every one was deleted; when it panics, the commands before some index
    were deleted and the ones after it not asked for, and either the session
    did not know its user at that index, or the deletion at that index
    failed and the panic names that command. *)
Theorem deleteRegistered_in_order (cs : list ApplicationCommand) :
  forall (host : Host) (h : list ProcessEvent),
    match deleteRegistered (Some <$> cs) host h with
    | (Returned _, es) =>
        deletionsAsked es = Command_ID <$> cs
        /\ deletedIDs es = Command_ID <$> cs
    | (Panicked f args, es) =>
        exists k c,
          cs !! k = Some c
          /\ deletedIDs es = Command_ID <$> take k cs
          /\ ((f = nilPointerDereference /\ args = []
               /\ deletionsAsked es = Command_ID <$> take k cs)
              \/ (exists e,
                    f = "Cannot delete '%v' command: %v"
                    /\ args = [ArgString (Command_Name c); ArgError e]
                    /\ deletionsAsked es = Command_ID <$> take (S k) cs))
    | (Exited _, _) => False
    | (Blocked, _) => False
    end.
Proof.
  induction cs as [|c rest IH]; intros host h.
  - cbn. split; reflexivity.
  - cbn [fmap list_fmap]. rewrite run_deleteRegistered_cons.
    destruct (onStateUser host h) as [u|].
    2:{ exists 0%nat, c. split; [reflexivity|]. split; [reflexivity|].
        left. repeat split. }
    cbv zeta.
    destruct (onApplicationCommandDelete host (h ++ []) _ _ _) as [e|].
    + exists 0%nat, c. split; [reflexivity|]. split; [reflexivity|].
      right. exists e. repeat split.
    + specialize (IH host
                     ((h ++ [])
                      ++ [PApplicationCommandDelete
                            (User_ID u) JuiceworksGuildId
                            (Command_ID c) None])).
      change (list_fmap _ _ Some rest) with (Some <$> rest).
      destruct (deleteRegistered (Some <$> rest) host _)
        as [[a|code|f args|] es].
      * destruct IH as (Ha & Hd). cbn. unfold deletionsAsked, deletedIDs in *.
        rewrite Ha, Hd. split; reflexivity.
      * exact IH.
      * destruct IH as (k & c' & Hk & Hd & Hcase).
        exists (S k), c'. split; [exact Hk|].
        split; [cbn; unfold deletedIDs in *; rewrite Hd; reflexivity|].
        destruct Hcase as [(Hf & Hargs & Ha) | (e & Hf & Hargs & Ha)].
        -- left. split; [exact Hf|]. split; [exact Hargs|].
           cbn. unfold deletionsAsked in *. rewrite Ha. reflexivity.
        -- right. exists e. split; [exact Hf|]. split; [exact Hargs|].
           cbn. unfold deletionsAsked in *. rewrite Ha. reflexivity.
      * exact IH.
Qed.
